(** * Buy.tsx: the multi-token purchase component of the Reservoir demo

    A shallow embedding of [src/buying/src/Buy.tsx]: the [buy] helper that
    drives the SDK's [buyToken], and the [List] component with its three
    event handlers (checkbox toggle, "Load tokens to buy", "Buy Tokens").

    React state is a record, the handlers are computations in a small
    state-and-exception monad that also logs the calls leaving the
    component (alert, console.error, the wallet connector, the catalog
    fetch and the SDK). *)

From Stdlib Require Import QArith.
From stdpp Require Import base option list strings pretty gmap fin_maps.

Local Open Scope string_scope.
Local Open Scope list_scope.

(** ** Values coming from the libraries the component talks to *)

(** A JavaScript [Error] object: [new ReferenceError('...')] has the name
    [ReferenceError]; [error.message] is what [handleError] prints. *)
Module JsError.
Record t := mk { name : string; message : string }.
End JsError.

#[global] Instance JsError_eq_dec : EqDecision JsError.t.
Proof. solve_decision. Defined.

(** The object [useSigner] returns in [data]; only its presence matters. *)
Inductive Signer := WalletSigner (address : string).

#[global] Instance Signer_eq_dec : EqDecision Signer.
Proof. solve_decision. Defined.

(** A JavaScript number, as far as [Boolean(_)] can tell numbers apart. *)
Inductive JsNumber :=
| NaN
| Num (q : Q).

(** [Boolean(x)] on a number: false for [0], [-0] and [NaN]. *)
Definition truthy_number (x : JsNumber) : bool :=
  match x with
  | NaN => false
  | Num q => negb (Z.eqb (Qnum q) 0)
  end.

(** [Boolean(x)] on [number | undefined]. *)
Definition Boolean (x : option JsNumber) : bool :=
  match x with
  | None => false
  | Some n => truthy_number n
  end.

(** Truthiness of [string | undefined], as in [!account?.address] and
    [currentStep.message || '']. *)
Definition truthy_string (x : option string) : bool :=
  match x with
  | None => false
  | Some s => negb (bool_decide (s = ""))
  end.

(** [x || d] on [string | undefined]. *)
Definition string_or (x : option string) (d : string) : string :=
  match x with
  | Some s => if truthy_string x then s else d
  | None => d
  end.
Infix "||" := string_or (at level 50, left associativity) : string_scope.

(** Modelled from the spec: the [Token] type of [./getTokens], which is not
    among the sources. The component reads [contract], [tokenId] and
    [floorAskPrice]; the spec gives an item a collection id, an item id
    and a price that is a number or absent. *)
Record Token := mkToken {
  contract : string;
  tokenId : string;
  floorAskPrice : option JsNumber
}.

(** Modelled from the spec: one entry of the SDK's [Execute['steps']]; its
    status is exactly one of [incomplete], [complete], [error] and it
    carries a message, which the code guards with [|| '']. *)
Inductive Status := incomplete | complete | error.

#[global] Instance Status_eq_dec : EqDecision Status.
Proof. solve_decision. Defined.

Record Step := mkStep { status : Status; message : option string }.

(** The [query] handed to [buyToken]: a JavaScript object used as a map
    from property names to strings. *)
Abbreviation BuyingQuery := (gmap string string).

(** ** Component state, effects and the handler monad *)

(** The six [useState] cells of [List]. *)
Record State := mkState {
  progressText : string;
  loading : bool;
  errorText : string;
  tokens : list Token;
  contractInput : string;
  selectedTokenIds : list string
}.

(** Calls that leave the component, in the order they happen. *)
Inductive Effect :=
| Alert (msg : string)
| ConsoleError (err : JsError.t)
| ConnectorConnect
| GetTokens (collection : string)
| BuyToken (query : BuyingQuery) (signer : Signer) (apiBase : string)
| Observed (msg : string).

Record World := mkWorld { ui : State; log : list Effect }.

Inductive Result (A : Type) :=
| Returned (a : A)
| Threw (e : JsError.t).
Arguments Returned {A} a.
Arguments Threw {A} e.

(** A handler body: it may update the state, log effects, and either
    return or throw.  What was written before a throw stays written. *)
Definition M (A : Type) : Type := World -> Result A * World.

Definition ret {A} (a : A) : M A := fun w => (Returned a, w).

Definition bind {A B} (m : M A) (k : A -> M B) : M B :=
  fun w =>
    match m w with
    | (Returned a, w') => k a w'
    | (Threw e, w') => (Threw e, w')
    end.

Definition throw {A} (e : JsError.t) : M A := fun w => (Threw e, w).

Definition try_catch {A} (body : M A) (handler : JsError.t -> M A) : M A :=
  fun w =>
    match body w with
    | (Returned a, w') => (Returned a, w')
    | (Threw e, w') => handler e w'
    end.

Definition emit (e : Effect) : M unit :=
  fun w => (Returned tt, {| ui := ui w; log := log w ++ [e] |}).

Definition modify (f : State -> State) : M unit :=
  fun w => (Returned tt, {| ui := f (ui w); log := log w |}).

#[global] Instance M_ret : MRet M := @ret.
#[global] Instance M_bind : MBind M := fun A B k m => bind m k.

(** Writing one [useState] cell. *)
Definition with_progressText (v : string) (s : State) : State :=
  mkState v (loading s) (errorText s) (tokens s)
          (contractInput s) (selectedTokenIds s).
Definition with_loading (v : bool) (s : State) : State :=
  mkState (progressText s) v (errorText s) (tokens s)
          (contractInput s) (selectedTokenIds s).
Definition with_errorText (v : string) (s : State) : State :=
  mkState (progressText s) (loading s) v (tokens s)
          (contractInput s) (selectedTokenIds s).
Definition with_tokens (v : list Token) (s : State) : State :=
  mkState (progressText s) (loading s) (errorText s) v
          (contractInput s) (selectedTokenIds s).
Definition with_contract (v : string) (s : State) : State :=
  mkState (progressText s) (loading s) (errorText s) (tokens s)
          v (selectedTokenIds s).
Definition with_selectedTokenIds (v : list string) (s : State) : State :=
  mkState (progressText s) (loading s) (errorText s) (tokens s)
          (contractInput s) v.

(** The state setters returned by [useState]. *)
Definition setProgressText (v : string) : M unit :=
  modify (with_progressText v).
Definition setLoading (v : bool) : M unit := modify (with_loading v).
Definition setErrorText (v : string) : M unit := modify (with_errorText v).
Definition setTokens (v : list Token) : M unit := modify (with_tokens v).
Definition setContract (v : string) : M unit := modify (with_contract v).
Definition setSelectedTokenIds (v : list string) : M unit :=
  modify (with_selectedTokenIds v).

(** Browser and console calls. *)
Definition alert (msg : string) : M unit := emit (Alert msg).
Definition console_error (err : JsError.t) : M unit := emit (ConsoleError err).

(** A promise that has settled: [None] resolved, [Some e] rejected. *)
Definition await (settled : option JsError.t) : M unit :=
  match settled with
  | None => ret tt
  | Some e => throw e
  end.

(** ** The SDK's [buyToken], seen from its caller *)

(** What one run of the external execution process does to its caller:
    the callbacks it invokes, in order, and how its promise settles. *)
Inductive Callback :=
| SetState (steps : option (list Step))
| HandleSuccess
| HandleError (err : JsError.t).

Record Execution := mkExecution {
  callbacks : list Callback;
  settles : option JsError.t
}.

Record BuyTokenArgs := mkArgs {
  query : BuyingQuery;
  signer : Signer;
  apiBase : string;
  setState : option (list Step) -> M unit;
  handleSuccess : unit -> M unit;
  handleError : JsError.t -> M unit
}.

Definition invoke (args : BuyTokenArgs) (c : Callback) : M unit :=
  match c with
  | SetState steps => setState args steps
  | HandleSuccess => handleSuccess args tt
  | HandleError err => handleError args err
  end.

Fixpoint invoke_all (args : BuyTokenArgs) (cs : list Callback) : M unit :=
  match cs with
  | [] => ret tt
  | c :: cs' => invoke args c ;; invoke_all args cs'
  end.

(** [await buyToken({...})]: the call is logged, the process runs its
    callbacks, and the promise settles. *)
Definition buyToken (sdk : Execution) (args : BuyTokenArgs) : M unit :=
  emit (BuyToken (query args) (signer args) (apiBase args)) ;;
  invoke_all args (callbacks sdk) ;;
  await (settles sdk).

(** ** [buy] (lines 9-54) *)

Definition missing_signer : JsError.t :=
  JsError.mk "ReferenceError" "Missing a signer".

(** The [setState] callback of lines 31-40. *)
Definition buy_setState (progressCallback : string -> M unit)
    (steps : option (list Step)) : M unit :=
  match steps with
  | None => ret tt
  | Some steps =>
      let currentStep :=
        List.find (fun step => bool_decide (status step = incomplete)) steps in
      match currentStep with
      | Some currentStep =>
          progressCallback (message currentStep || "")
      | None => ret tt
      end
  end.

Definition buy (sdk : Execution) (query : BuyingQuery)
    (progressCallback : string -> M unit) (signer : option Signer) : M bool :=
  match signer with
  | None => throw missing_signer
  | Some signer =>
      try_catch
        (buyToken sdk
           {| query := query;
              signer := signer;
              apiBase := "https://api-rinkeby.reservoir.tools";
              setState := buy_setState progressCallback;
              handleSuccess := fun _ => progressCallback "Success";
              handleError := fun error =>
                progressCallback ("Error: " +:+ JsError.message error) |} ;;
         ret true)
        (fun err => console_error err ;; throw err)
  end.

(** ** The [List] component (lines 56-214) *)

(** What the wagmi hooks hand to one render of the component. *)
Record Hooks := mkHooks {
  signer_data : option Signer;       (* useSigner().data *)
  account_address : option string;   (* account?.address *)
  isConnected : bool;                (* useConnect().isConnected *)
  activeChain_id : option Z;         (* activeChain?.id *)
  connect_settles : option JsError.t   (* how connectors[0].connect() ends *)
}.

(** Modelled from the spec: [getTokens] of [./getTokens], which is not among
    the sources: it fetches the items of a collection and may fail. *)
Definition getTokens (catalog : string -> Result (list Token))
    (collection : string) : M (list Token) :=
  emit (GetTokens collection) ;;
  match catalog collection with
  | Returned items => ret items
  | Threw e => throw e
  end.

Definition connector_connect (h : Hooks) : M unit :=
  emit ConnectorConnect ;; await (connect_settles h).

(** [selectedTokenIds.includes(tokenId)]. *)
Definition includes (ids : list string) (tokenId : string) : bool :=
  bool_decide (tokenId ∈ ids).

(** Lines 72-85.  A handler reads the state of the render it was created
    in ([s]) and writes through the setters. *)
Definition updatedSelectedTokenIds (selectedTokenIds : list string)
    (tokenId : string) : list string :=
  let selected := includes selectedTokenIds tokenId in
  if selected
  then List.filter (fun selectedTokenId =>
                      negb (bool_decide (tokenId = selectedTokenId)))
         selectedTokenIds
  else selectedTokenIds ++ [tokenId].

Definition handleOnChange (s : State) (tokenId : string) : M unit :=
  setSelectedTokenIds (updatedSelectedTokenIds (selectedTokenIds s) tokenId).

(** Lines 106-118: the "Load tokens to buy" button. *)
Definition onLoadClick (catalog : string -> Result (list Token))
    (s : State) : M unit :=
  setErrorText "" ;;
  setLoading true ;;
  tokens ← getTokens catalog (contractInput s) ;
  setLoading false ;;
  let filteredTokens :=
    List.filter (fun t => Boolean (floorAskPrice t)) tokens in
  (if Nat.eqb (length filteredTokens) 0
   then setErrorText "There are no tokens available to purchase."
   else ret tt) ;;
  setTokens filteredTokens.

(** Lines 175-183: [query = { taker }] followed by the [forEach] that
    assigns [query[`tokens[${index}]`] = `${contract}:${tokenId}`]. *)
Definition tokens_key (index : nat) : string :=
  "tokens[" +:+ pretty index +:+ "]".

Definition encode (contract tokenId : string) : string :=
  contract +:+ ":" +:+ tokenId.

Fixpoint forEach_assign (contract : string) (index : nat)
    (ids : list string) (query : BuyingQuery) : BuyingQuery :=
  match ids with
  | [] => query
  | tokenId :: rest =>
      forEach_assign contract (S index) rest
        (<[tokens_key index := encode contract tokenId]> query)
  end.

Definition build_query (taker contract : string)
    (selectedTokenIds : list string) : BuyingQuery :=
  forEach_assign contract 0 selectedTokenIds {["taker" := taker]}.

Definition wrong_network_message : string :=
  "You are connected to the wrong network. Please, switch to the Rinkeby Test Network.".

(** Lines 152-188: the "Buy Tokens" button.  [!account?.address] holds
    for a missing account and for an empty address. *)
Definition submit (h : Hooks) (sdk : Execution) (s : State)
    (taker : string) : M unit :=
  (if negb (isConnected h) then connector_connect h else ret tt) ;;
  setProgressText "" ;;
  let query := build_query taker (contractInput s) (selectedTokenIds s) in
  buy sdk query setProgressText (signer_data h) ;;
  setLoading false.

Definition onBuyClick (h : Hooks) (sdk : Execution) (s : State) : M unit :=
  setLoading true ;;
  if negb (bool_decide (activeChain_id h = Some 4%Z))
  then alert wrong_network_message ;; setLoading false
  else
    match account_address h with
    | None => setLoading false
    | Some address =>
        if negb (truthy_string (Some address))
        then setLoading false
        else submit h sdk s address
    end.

(** An event fires the handler of the current render. *)
Definition fire {A} (handler : State -> M A) : M A :=
  fun w => handler (ui w) w.

Definition initial_state : State :=
  {| progressText := "";
     loading := false;
     errorText := "";
     tokens := [];
     contractInput := "0x4d68e14cd7dec510c84326f54ee41f88e8fad59b";
     selectedTokenIds := [] |}.

Definition start (s : State) : World := {| ui := s; log := [] |}.

(** ** The component as a machine driven by the user *)

Inductive Event :=
| ChangeContract (value : string)                        (* line 102 *)
| ClickLoad (catalog : string -> Result (list Token))    (* line 106 *)
| ClickCheckbox (row : nat)                              (* line 143 *)
| ClickBuy (h : Hooks) (sdk : Execution).                (* line 152 *)

(** The table has one checkbox per entry of [tokens] (lines 134-147); a
    click on a row that is not there is no event at all. *)
Definition handle (ev : Event) : M unit :=
  match ev with
  | ChangeContract value => setContract value
  | ClickLoad catalog => fire (onLoadClick catalog)
  | ClickCheckbox row =>
      fire (fun s =>
              match tokens s !! row with
              | Some t => handleOnChange s (tokenId t)
              | None => ret tt
              end)
  | ClickBuy h sdk => fire (onBuyClick h sdk)
  end.

(** A handler that throws leaves an unhandled rejection behind: the state
    stays as the handler left it and the next event goes on from there. *)
Fixpoint run (evs : list Event) (w : World) : World :=
  match evs with
  | [] => w
  | ev :: evs' => run evs' (handle ev w).2
  end.


(** Clicking the same checkbox [n] times, each click on a fresh render. *)
Definition click_times (n : nat) (tokenId : string) (w : World) : World :=
  Nat.iter n (fun w => (fire (fun s => handleOnChange s tokenId) w).2) w.

(** The selection reached from nothing by ticking the ids in [order]. *)
Definition ticked (order : list string) : list string :=
  foldl updatedSelectedTokenIds [] order.

(** ** The progress narrative *)

(** What the observer is told, by the callback that says it.  The observer
    itself only ever sees the rendered text. *)
Inductive Message :=
| InProgress (text : string)
| Success
| Error (text : string).

Definition render (m : Message) : string :=
  match m with
  | InProgress text => text
  | Success => "Success"
  | Error text => "Error: " +:+ text
  end.

Definition terminal (m : Message) : bool :=
  match m with
  | InProgress _ => false
  | Success | Error _ => true
  end.

(** The step a notification reports: the first one still [incomplete]. *)
Definition currentStep (steps : list Step) : option Step :=
  List.find (fun step => bool_decide (status step = incomplete)) steps.

(** What one callback of the process makes [buy] say. *)
Definition emission (c : Callback) : option Message :=
  match c with
  | SetState None => None
  | SetState (Some steps) =>
      (fun step => InProgress (message step || "")) <$> currentStep steps
  | HandleSuccess => Some Success
  | HandleError err => Some (Error (JsError.message err))
  end.

Definition emissions (cs : list Callback) : list Message :=
  omap emission cs.

(** Zero or more [InProgress] messages, then exactly one terminal one. *)
Definition narrative (ms : list Message) : Prop :=
  exists texts t, ms = (InProgress <$> texts) ++ [t] /\ terminal t = true.

(** A process that reports steps and then finishes with exactly one of
    [handleSuccess], [handleError]. *)
Definition finishes_once (cs : list Callback) : Prop :=
  exists notifications t,
    cs = (SetState <$> notifications) ++ [t] /\
    (t = HandleSuccess \/ exists err, t = HandleError err).

(** The Failed state: the error text shown and loading over. *)
Definition failed_state (s : State) (e : JsError.t) : Prop :=
  progressText s = render (Error (JsError.message e)) /\ loading s = false.

(** ** Sinks and the worlds the handlers reach *)

(** A sink that writes every message it receives to the log. *)
Definition recorder (msg : string) : M unit := emit (Observed msg).

Definition observed (l : list Effect) : list string :=
  omap (fun e => match e with Observed msg => Some msg | _ => None end) l.

Definition logged (e : Effect) (w : World) : World :=
  {| ui := ui w; log := log w ++ [e] |}.

(** What [recorder] and [setProgressText] do to the world. *)
Definition record (msg : string) (w : World) : World :=
  logged (Observed msg) w.

Definition show_progress (msg : string) (w : World) : World :=
  {| ui := with_progressText msg (ui w); log := log w |}.

(** The world after a sink that cannot fail has been told [ms] in order. *)
Definition told (upd : string -> World -> World) (w : World)
    (ms : list Message) : World :=
  foldl (fun w m => upd (render m) w) w ms.

Definition now_loading (w : World) : World :=
  {| ui := with_loading true (ui w); log := log w |}.

Definition done_loading (w : World) : World :=
  {| ui := with_loading false (ui w); log := log w |}.

(** Lines 168-170: the connector is asked only when not connected. *)
Definition connecting (h : Hooks) : M unit :=
  if negb (isConnected h) then connector_connect h else ret tt.

Definition api_rinkeby : string := "https://api-rinkeby.reservoir.tools".

(** ** Catalog and request *)

(** The filter of lines 111-113. *)
Definition priced (items : list Token) : list Token :=
  List.filter (fun t => Boolean (floorAskPrice t)) items.

Definition all_priced (items : list Token) : Prop :=
  Forall (fun t => Boolean (floorAskPrice t) = true) items.

(** The encoded items of a request: every value but the taker's. *)
Definition items (q : BuyingQuery) : gset string :=
  map_img (delete "taker" q).

(** The cells a click on "Buy Tokens" never writes. *)
Definition same_catalog_and_selection (s s' : State) : Prop :=
  tokens s' = tokens s /\
  contractInput s' = contractInput s /\
  selectedTokenIds s' = selectedTokenIds s.

(** ** Concrete wallets, purchases, listings *)

(** A wallet on Rinkeby with an account, connected and able to sign. *)
Definition rinkeby_wallet : Hooks :=
  {| signer_data := Some (WalletSigner "0xB0b");
     account_address := Some "0xB0b";
     isConnected := true;
     activeChain_id := Some 4%Z;
     connect_settles := None |}.

(** The same wallet on the main network. *)
Definition mainnet_wallet : Hooks :=
  {| signer_data := Some (WalletSigner "0xB0b");
     account_address := Some "0xB0b";
     isConnected := true;
     activeChain_id := Some 1%Z;
     connect_settles := None |}.

(** A purchase that reports two steps and succeeds. *)
Definition two_step_sale : Execution :=
  {| callbacks :=
       [SetState (Some [mkStep incomplete (Some "Approving");
                        mkStep incomplete (Some "Confirming")]);
        SetState (Some [mkStep complete (Some "Approving");
                        mkStep incomplete (Some "Confirming")]);
        HandleSuccess];
     settles := None |}.

(** A purchase rejected before any step is reported. *)
Definition insufficient_funds : JsError.t :=
  JsError.mk "Error" "insufficient funds".

Definition rejected_at_once : Execution :=
  {| callbacks := []; settles := Some insufficient_funds |}.

(** A process that reports a step after it has reported success. *)
Definition late_step : Execution :=
  {| callbacks :=
       [HandleSuccess;
        SetState (Some [mkStep incomplete (Some "Confirming")])];
     settles := None |}.

(** A state with two priced tokens listed and both ticked. *)
Definition two_ticked : State :=
  {| progressText := "";
     loading := false;
     errorText := "";
     tokens := [mkToken "0xC" "A" (Some (Num (1 # 2)));
                mkToken "0xC" "B" (Some (Num (3 # 1)))];
     contractInput := "0xC";
     selectedTokenIds := ["A"; "B"] |}.

(** The same listing with nothing ticked. *)
Definition none_ticked : State := with_selectedTokenIds [] two_ticked.

(** A fetch of two items, one of them without a price. *)
Definition two_listed (collection : string) : Result (list Token) :=
  Returned [mkToken collection "7" (Some (Num (1 # 2)));
            mkToken collection "8" None].

(** A fetch of three items: one priced, one priced 0, one without price. *)
Definition three_fetched (collection : string) : Result (list Token) :=
  Returned [mkToken collection "1" (Some (Num (1 # 2)));
            mkToken collection "2" (Some (Num 0));
            mkToken collection "3" None].

(** ** What is rendered (lines 87-213) *)

(** One table row (lines 135-146): the label, the price cell, and the
    checkbox with its value and checked flag. *)
Record Row := mkRow {
  label : string;
  priceCell : option JsNumber;
  checkboxValue : string;
  checked : bool
}.

(** The table with the "Buy Tokens" button under it (lines 123-193). *)
Record Listing := mkListing {
  rows : list Row;
  buyDisabled : bool
}.

(** What [isConnected &&] guards (lines 91-195). *)
Record Panel := mkPanel {
  inputValue : string;
  listing : option Listing
}.

Record View := mkView {
  panel : option Panel;
  loadingBanner : bool;              (* lines 197-201 *)
  progressBanner : option string;    (* lines 202-206 *)
  errorBanner : option string        (* lines 207-211 *)
}.

Definition row_of (selectedTokenIds : list string) (t : Token) : Row :=
  {| label := contract t +:+ ":" +:+ tokenId t;
     priceCell := floorAskPrice t;
     checkboxValue := tokenId t;
     checked := includes selectedTokenIds (tokenId t) |}.

(** [text !== '' && ...]. *)
Definition banner (text : string) : option string :=
  if bool_decide (text = "") then None else Some text.

Definition view (h : Hooks) (s : State) : View :=
  {| panel :=
       if isConnected h
       then Some
              {| inputValue := contractInput s;
                 listing :=
                   if Nat.ltb 0 (length (tokens s))
                   then Some
                          {| rows := row_of (selectedTokenIds s) <$> tokens s;
                             buyDisabled :=
                               orb (negb (isConnected h)) (loading s) |}
                   else None |}
       else None;
     loadingBanner := loading s;
     progressBanner := banner (progressText s);
     errorBanner := banner (errorText s) |}.

(** ** Counting what a click does *)

Definition is_BuyToken (e : Effect) : bool :=
  match e with
  | BuyToken _ _ _ => true
  | _ => false
  end.

Definition buyToken_calls (l : list Effect) : nat :=
  length (List.filter is_BuyToken l).

(** The wallet state in which a click on "Buy Tokens" gets as far as the
    SDK: chain 4, an address, connected (or the connector resolves), and a
    signer. *)
Definition reaches_sdk (h : Hooks) : bool :=
  bool_decide (activeChain_id h = Some 4%Z)
  && truthy_string (account_address h)
  && orb (isConnected h) (bool_decide (connect_settles h = None))
  && bool_decide (signer_data h <> None).

Definition is_ClickLoad (ev : Event) : bool :=
  match ev with
  | ClickLoad _ => true
  | _ => false
  end.

Definition no_tokens_message : string :=
  "There are no tokens available to purchase.".

(** A wallet with an empty address, and one without a signer. *)
Definition empty_address_wallet : Hooks :=
  {| signer_data := Some (WalletSigner "0xB0b");
     account_address := Some "";
     isConnected := true;
     activeChain_id := Some 4%Z;
     connect_settles := None |}.

Definition unsigned_wallet : Hooks :=
  {| signer_data := None;
     account_address := Some "0xB0b";
     isConnected := true;
     activeChain_id := Some 4%Z;
     connect_settles := None |}.

(** A catalog that cannot be reached. *)
Definition network_down : JsError.t := JsError.mk "TypeError" "Failed to fetch".

Definition unreachable_catalog (collection : string) : Result (list Token) :=
  Threw network_down.

(** A fetch in which nothing has a price. *)
Definition none_priced (collection : string) : Result (list Token) :=
  Returned [mkToken collection "5" None;
            mkToken collection "6" (Some (Num 0))].

(** ** The step a notification is said to report *)

(** The most recently seen incomplete step of a notification, in the words
    of the specification: the last step of the array that is still
    [incomplete].  [currentStep] is what the code takes. *)
Definition latestIncomplete (steps : list Step) : option Step :=
  last (List.filter (fun step => bool_decide (status step = incomplete)) steps).

(** A notification with two steps still to do. *)
Definition two_pending : list Step :=
  [mkStep incomplete (Some "Approving");
   mkStep incomplete (Some "Confirming")].



(** * Properties *)

(** ** Running [buy] *)

Section BuyRun.
Variable sink : string -> M unit.
Variable upd : string -> World -> World.
Hypothesis sink_total : forall msg w, sink msg w = (Returned tt, upd msg w).

Let args (q : BuyingQuery) (sg : Signer) : BuyTokenArgs :=
  {| query := q; signer := sg; apiBase := api_rinkeby;
     setState := buy_setState sink;
     handleSuccess := fun _ => sink "Success";
     handleError := fun error => sink ("Error: " +:+ JsError.message error) |}.

Lemma invoke_told q sg c w :
  invoke (args q sg) c w
  = (Returned tt, told upd w (option_list (emission c))).
Proof using sink_total.
  destruct c as [[steps|]| |err]; cbn; try apply sink_total; try done.
  unfold buy_setState, currentStep.
  destruct (List.find _ steps) as [st|]; cbn; [apply sink_total|done].
Qed.

Lemma invoke_all_told q sg cs w :
  invoke_all (args q sg) cs w = (Returned tt, told upd w (emissions cs)).
Proof using sink_total.
  revert w. induction cs as [|c cs IH]; intros w; [done|].
  change (invoke_all (args q sg) (c :: cs))
    with (bind (invoke (args q sg) c) (fun _ => invoke_all (args q sg) cs)).
  unfold bind. rewrite invoke_told, IH. f_equal.
  unfold emissions. cbn [omap list_omap].
  destruct (emission c); reflexivity.
Qed.

Lemma buy_run sdk q sg w :
  buy sdk q sink (Some sg) w
  = let w1 := told upd (logged (BuyToken q sg api_rinkeby) w)
                   (emissions (callbacks sdk)) in
    match settles sdk with
    | None => (Returned true, w1)
    | Some e => (Threw e, logged (ConsoleError e) w1)
    end.
Proof using sink_total.
  unfold buy, try_catch, buyToken, mbind, M_bind, bind.
  cbn [emit query signer apiBase].
  pose proof (invoke_all_told q sg (callbacks sdk)
                (logged (BuyToken q sg api_rinkeby) w)) as Hrun.
  unfold args, api_rinkeby, logged in Hrun. rewrite Hrun.
  destruct (settles sdk); reflexivity.
Qed.
End BuyRun.

(** ** The selection (lines 72-85) *)

Lemma includes_true ids x : includes ids x = true <-> x ∈ ids.
Proof. unfold includes. apply bool_decide_eq_true. Qed.

Lemma includes_updated_same ids x :
  includes (updatedSelectedTokenIds ids x) x = negb (includes ids x).
Proof.
  unfold updatedSelectedTokenIds.
  destruct (includes ids x) eqn:Hin; cbn [negb].
  - apply not_true_is_false. rewrite includes_true, list_elem_of_In.
    intros [_ Hx]%filter_In.
    rewrite negb_true_iff, bool_decide_eq_false in Hx. by apply Hx.
  - apply includes_true, elem_of_app. right. by apply list_elem_of_singleton.
Qed.

Lemma includes_updated_other ids x y :
  x <> y ->
  includes (updatedSelectedTokenIds ids x) y = includes ids y.
Proof.
  intros Hne. unfold updatedSelectedTokenIds.
  apply eq_true_iff_eq. rewrite !includes_true.
  destruct (includes ids x).
  - rewrite !list_elem_of_In, filter_In, negb_true_iff, bool_decide_eq_false.
    tauto.
  - rewrite elem_of_app, list_elem_of_singleton. intuition congruence.
Qed.

Lemma click_once tokenId w :
  selectedTokenIds (ui (fire (fun s => handleOnChange s tokenId) w).2)
  = updatedSelectedTokenIds (selectedTokenIds (ui w)) tokenId.
Proof. reflexivity. Qed.

(** C9: toggling one id an even number of times leaves its membership in
    the selection as it was, and an odd number of times flips it, from
    every starting selection. *)
Theorem C9_toggle_parity (tokenId : string) (n : nat) (w : World) :
  includes (selectedTokenIds (ui (click_times n tokenId w))) tokenId
  = if Nat.even n
    then includes (selectedTokenIds (ui w)) tokenId
    else negb (includes (selectedTokenIds (ui w)) tokenId).
Proof.
  induction n as [|n IH]; [done|].
  unfold click_times in *. rewrite Nat.iter_succ, click_once.
  rewrite includes_updated_same, IH, Nat.even_succ, <- Nat.negb_even.
  destruct (Nat.even n); cbn [negb]; [done|apply negb_involutive].
Qed.

(** ** The request (lines 175-183) *)

Lemma append_bracket_inj (s1 s2 : string) :
  s1 +:+ "]" = s2 +:+ "]" -> s1 = s2.
Proof.
  revert s2. induction s1 as [|a s1 IH]; intros [|b s2] Heq; cbn in Heq.
  - done.
  - injection Heq as _ Heq. by destruct s2.
  - injection Heq as _ Heq. by destruct s1.
  - injection Heq as -> Heq. f_equal. by apply IH.
Qed.

Lemma tokens_key_inj (i j : nat) : tokens_key i = tokens_key j -> i = j.
Proof.
  unfold tokens_key. intros Heq%(inj (String.app "tokens[")).
  by apply append_bracket_inj, (inj pretty) in Heq.
Qed.

Lemma tokens_key_not_taker (i : nat) : tokens_key i <> "taker".
Proof. unfold tokens_key. cbn. discriminate. Qed.

Lemma forEach_assign_fresh contract ids (k : string) :
  forall index (q : gmap string string),
    (forall i, i < length ids -> k <> tokens_key (index + i)) ->
    forEach_assign contract index ids q !! k = q !! k.
Proof.
  induction ids as [|tokenId rest IH]; intros index q Hk; [done|].
  cbn [forEach_assign]. rewrite IH.
  - apply lookup_insert_ne. intros Heq. apply (Hk 0); cbn; [lia|].
    by rewrite Nat.add_0_r.
  - intros i Hi. replace (S index + i) with (index + S i) by lia.
    apply Hk. cbn. lia.
Qed.

Lemma forEach_assign_assigned contract ids :
  forall index (q : gmap string string) i tokenId,
    ids !! i = Some tokenId ->
    forEach_assign contract index ids q !! tokens_key (index + i)
    = Some (encode contract tokenId).
Proof.
  induction ids as [|x rest IH]; intros index q i tokenId Hi; [done|].
  cbn [forEach_assign]. destruct i as [|i]; cbn in Hi.
  - injection Hi as ->. rewrite Nat.add_0_r, forEach_assign_fresh.
    + apply lookup_insert_eq.
    + intros i _ Heq%tokens_key_inj. lia.
  - replace (index + S i) with (S index + i) by lia. by apply IH.
Qed.

Lemma forEach_assign_origin contract ids (k v : string) :
  forall index (q : gmap string string),
    forEach_assign contract index ids q !! k = Some v ->
    q !! k = Some v \/
    exists i tokenId,
      ids !! i = Some tokenId /\ k = tokens_key (index + i) /\
      v = encode contract tokenId.
Proof.
  induction ids as [|x rest IH]; intros index q Hk; [by left|].
  cbn [forEach_assign] in Hk.
  destruct (IH _ _ Hk) as [Hq | (i & tokenId & Hi & -> & ->)].
  - apply lookup_insert_Some in Hq as [[<- <-] | [_ Hq]]; [right|by left].
    exists 0, x. by rewrite Nat.add_0_r.
  - right. exists (S i), tokenId.
    by replace (index + S i) with (S index + i) by lia.
Qed.

Lemma build_query_tokens taker contract ids (i : nat) :
  build_query taker contract ids !! tokens_key i
  = encode contract <$> ids !! i.
Proof.
  unfold build_query. destruct (ids !! i) as [tokenId|] eqn:Hi; cbn.
  - by apply (forEach_assign_assigned contract ids 0).
  - rewrite forEach_assign_fresh.
    + apply lookup_singleton_ne. intros Heq. by apply (tokens_key_not_taker i).
    + intros j Hj Heq%tokens_key_inj. apply lookup_ge_None in Hi. cbn in Heq. lia.
Qed.

Lemma build_query_taker taker contract ids :
  build_query taker contract ids !! "taker" = Some taker.
Proof.
  unfold build_query. rewrite forEach_assign_fresh.
  - apply lookup_singleton_eq.
  - intros i _ Heq. by apply (tokens_key_not_taker (0 + i)).
Qed.

Lemma items_build_query taker contract ids :
  items (build_query taker contract ids)
  = list_to_set (encode contract <$> ids).
Proof.
  apply set_eq. intros v. unfold items.
  rewrite elem_of_map_img, elem_of_list_to_set, list_elem_of_fmap. split.
  - intros [k Hk]. apply lookup_delete_Some in Hk as [Hne Hk].
    apply forEach_assign_origin in Hk as [Hk | (i & tokenId & Hi & _ & ->)].
    + apply lookup_singleton_Some in Hk as [<- _]. done.
    + exists tokenId. split; [done|]. by eapply list_elem_of_lookup_2.
  - intros (tokenId & -> & [i Hi]%list_elem_of_lookup_1).
    exists (tokens_key i). rewrite lookup_delete_ne.
    + by rewrite build_query_tokens, Hi.
    + intros Heq. by apply (tokens_key_not_taker i).
Qed.

(** C8: the request holds, under the property [tokens[i]], the i-th selected
    id encoded as [contract:tokenId], and nothing else but the taker; its
    set of encoded items is the image of the selected ids, so for the ids A
    and B and contract 0xC it is the set of 0xC:A and 0xC:B whichever box
    was ticked first. *)
Theorem C8_request_encoding :
  (forall taker contract ids (i : nat),
      build_query taker contract ids !! tokens_key i
      = encode contract <$> ids !! i) /\
  (forall taker contract ids,
      build_query taker contract ids !! "taker" = Some taker /\
      items (build_query taker contract ids)
      = list_to_set (encode contract <$> ids)) /\
  (forall contract tokenId, encode contract tokenId
                            = contract +:+ ":" +:+ tokenId) /\
  (forall taker,
      items (build_query taker "0xC" (ticked ["A"; "B"]))
      = {[ "0xC:A"; "0xC:B" ]} /\
      items (build_query taker "0xC" (ticked ["B"; "A"]))
      = {[ "0xC:A"; "0xC:B" ]}).
Proof.
  split; [apply build_query_tokens|].
  split; [intros; split; [apply build_query_taker|apply items_build_query]|].
  split; [done|].
  intros taker. rewrite !items_build_query. cbn. split; set_solver.
Qed.

(** ** The two sinks [buy] is run with *)

Lemma setProgressText_total msg w :
  setProgressText msg w = (Returned tt, show_progress msg w).
Proof. reflexivity. Qed.

Lemma recorder_total msg w : recorder msg w = (Returned tt, record msg w).
Proof. reflexivity. Qed.

Lemma told_snoc upd w ms m :
  told upd w (ms ++ [m]) = upd (render m) (told upd w ms).
Proof. unfold told. by rewrite foldl_app. Qed.

Lemma told_show_log w ms : log (told show_progress w ms) = log w.
Proof.
  induction ms as [|m ms IH] using rev_ind; [done|].
  by rewrite told_snoc.
Qed.

Lemma told_show_ui w ms :
  ui (told show_progress w ms)
  = match last ms with
    | Some m => with_progressText (render m) (ui w)
    | None => ui w
    end.
Proof.
  induction ms as [|m ms IH] using rev_ind; [done|].
  rewrite told_snoc, last_snoc. cbn [show_progress ui]. rewrite IH.
  by destruct (last ms).
Qed.

Lemma told_record_ui w ms : ui (told record w ms) = ui w.
Proof.
  induction ms as [|m ms IH] using rev_ind; [done|].
  by rewrite told_snoc.
Qed.

Lemma told_record_log w ms :
  log (told record w ms) = log w ++ (Observed <$> (render <$> ms)).
Proof.
  induction ms as [|m ms IH] using rev_ind; [by rewrite app_nil_r|].
  rewrite told_snoc, !fmap_app, app_assoc, <- IH. reflexivity.
Qed.

Lemma observed_app l1 l2 : observed (l1 ++ l2) = observed l1 ++ observed l2.
Proof. unfold observed. apply omap_app. Qed.

Lemma observed_Observed msgs : observed (Observed <$> msgs) = msgs.
Proof. induction msgs as [|m msgs IH]; [done|]. cbn. f_equal. exact IH. Qed.

Lemma told_show_same w ms :
  same_catalog_and_selection (ui w) (ui (told show_progress w ms)).
Proof. rewrite told_show_ui. by destruct (last ms). Qed.

(** ** "Load tokens to buy" (lines 106-118) *)

Lemma onLoadClick_run catalog s w :
  onLoadClick catalog s w
  = let w1 := logged (GetTokens (contractInput s))
                {| ui := with_loading true (with_errorText "" (ui w));
                   log := log w |} in
    match catalog (contractInput s) with
    | Threw e => (Threw e, w1)
    | Returned items =>
        let s2 := with_loading false (ui w1) in
        let s3 := if Nat.eqb (length (priced items)) 0
                  then with_errorText
                         "There are no tokens available to purchase." s2
                  else s2 in
        (Returned tt, {| ui := with_tokens (priced items) s3; log := log w1 |})
    end.
Proof.
  unfold onLoadClick, getTokens, mbind, M_bind, bind. cbn.
  destruct (catalog (contractInput s)) as [items|e]; cbn; [|done].
  fold (priced items). by destruct (Nat.eqb (length (priced items)) 0).
Qed.

Lemma onLoadClick_selection catalog s w :
  selectedTokenIds (ui (onLoadClick catalog s w).2) = selectedTokenIds (ui w).
Proof.
  rewrite onLoadClick_run. cbn.
  destruct (catalog (contractInput s)) as [items|e]; cbn; [|done].
  by destruct (Nat.eqb (length (priced items)) 0).
Qed.




(** C2, as stated, fails: token 1 is listed and ticked, and after a second
    fetch, which no longer lists it, it is still selected. *)
Lemma C2_counterexample :
  selectedTokenIds
    (ui (run [ClickLoad three_fetched; ClickCheckbox 0] (start initial_state)))
  = ["1"] /\
  tokenId <$> tokens
    (ui (run [ClickLoad three_fetched; ClickCheckbox 0; ClickLoad two_listed]
           (start initial_state)))
  = ["7"] /\
  selectedTokenIds
    (ui (run [ClickLoad three_fetched; ClickCheckbox 0; ClickLoad two_listed]
           (start initial_state)))
  = ["1"] /\
  selectedTokenIds
    (ui (run [ClickLoad three_fetched; ClickCheckbox 0; ClickLoad two_listed]
           (start initial_state)))
  <> [].
Proof. repeat split; try reflexivity. discriminate. Qed.

(** C2, amended: a catalog fetch does not touch the selection: whatever was
    selected before "Load tokens to buy" is selected after it, whether the
    fetch returns items or fails. *)
Theorem C2_load_keeps_selection catalog (s : State) (w : World) :
  selectedTokenIds (ui (onLoadClick catalog s w).2) = selectedTokenIds (ui w).
Proof. apply onLoadClick_selection. Qed.

(** ** "Buy Tokens" (lines 152-188) *)

Lemma connecting_connected h w :
  isConnected h = true -> connecting h w = (Returned tt, w).
Proof. intros Hc. unfold connecting. by rewrite Hc. Qed.

Lemma connecting_ui h w : ui (connecting h w).2 = ui w.
Proof.
  unfold connecting, connector_connect, mbind, M_bind, bind.
  destruct (isConnected h); cbn; [done|].
  by destruct (connect_settles h).
Qed.

Lemma submit_run h sdk s taker w :
  submit h sdk s taker w
  = match connecting h w with
    | (Threw e, w0) => (Threw e, w0)
    | (Returned _, w0) =>
        match signer_data h with
        | None => (Threw missing_signer, show_progress "" w0)
        | Some sg =>
            let q := build_query taker (contractInput s)
                       (selectedTokenIds s) in
            let w1 := told show_progress
                        (logged (BuyToken q sg api_rinkeby)
                                (show_progress "" w0))
                        (emissions (callbacks sdk)) in
            match settles sdk with
            | None => (Returned tt, done_loading w1)
            | Some e => (Threw e, logged (ConsoleError e) w1)
            end
        end
    end.
Proof.
  unfold submit. fold (connecting h).
  unfold mbind, M_bind. unfold bind at 1.
  destruct (connecting h w) as [[[]|e] w0]; [|done].
  unfold bind at 1. rewrite setProgressText_total.
  unfold bind. destruct (signer_data h) as [sg|]; [|done].
  rewrite (buy_run _ _ setProgressText_total). cbn zeta.
  by destruct (settles sdk).
Qed.

Lemma onBuyClick_wrong_network h sdk s w :
  activeChain_id h <> Some 4%Z ->
  onBuyClick h sdk s w
  = (Returned tt, done_loading (logged (Alert wrong_network_message) w)).
Proof.
  intros Hchain. unfold onBuyClick, mbind, M_bind, bind. cbn.
  by rewrite bool_decide_eq_false_2.
Qed.

Lemma onBuyClick_no_account h sdk s w :
  activeChain_id h = Some 4%Z ->
  truthy_string (account_address h) = false ->
  onBuyClick h sdk s w = (Returned tt, done_loading w).
Proof.
  intros Hchain Hacc. unfold onBuyClick, mbind, M_bind, bind. cbn.
  rewrite bool_decide_eq_true_2 by done. cbn.
  destruct (account_address h) as [address|]; [|done].
  cbn in Hacc |- *. by rewrite Hacc.
Qed.

Lemma onBuyClick_submits h sdk s w taker :
  activeChain_id h = Some 4%Z ->
  account_address h = Some taker ->
  taker <> "" ->
  onBuyClick h sdk s w = submit h sdk s taker (now_loading w).
Proof.
  intros Hchain Hacc Hne. unfold onBuyClick, mbind, M_bind. unfold bind at 1.
  cbn [setLoading modify]. rewrite bool_decide_eq_true_2 by done.
  cbn [negb]. rewrite Hacc. cbn [truthy_string].
  by rewrite bool_decide_eq_false_2.
Qed.

(** The account address makes three cases of a click. *)
Lemma account_cases (h : Hooks) :
  truthy_string (account_address h) = false \/
  exists taker, account_address h = Some taker /\ taker <> "".
Proof.
  destruct (account_address h) as [a|]; [|by left]. cbn.
  destruct (decide (a = "")) as [->|Hne]; [by left|right; eauto].
Qed.

Lemma submit_same h sdk s taker w :
  same_catalog_and_selection (ui w) (ui (submit h sdk s taker w).2).
Proof.
  rewrite submit_run. pose proof (connecting_ui h w) as Hui.
  destruct (connecting h w) as [[[]|e] w0]; cbn in Hui; rewrite <- Hui.
  - destruct (signer_data h) as [sg|]; [|done].
    cbn zeta.
    match goal with |- context [told show_progress ?w1 ?ms] =>
      pose proof (told_show_same w1 ms) as Hsame;
      set (w2 := told show_progress w1 ms) in *
    end.
    by destruct (settles sdk).
  - done.
Qed.

Lemma onBuyClick_same h sdk s w :
  same_catalog_and_selection (ui w) (ui (onBuyClick h sdk s w).2).
Proof.
  destruct (decide (activeChain_id h = Some 4%Z)) as [Hchain|Hchain].
  - destruct (account_cases h) as [Hacc|(taker & Hacc & Hne)].
    + by rewrite onBuyClick_no_account.
    + rewrite (onBuyClick_submits _ _ _ _ taker) by done.
      apply (submit_same h sdk s taker (now_loading w)).
  - by rewrite onBuyClick_wrong_network.
Qed.

Lemma onBuyClick_executes h sdk s w taker sg :
  activeChain_id h = Some 4%Z ->
  account_address h = Some taker ->
  taker <> "" ->
  isConnected h = true ->
  signer_data h = Some sg ->
  onBuyClick h sdk s w
  = let q := build_query taker (contractInput s) (selectedTokenIds s) in
    let w1 := told show_progress
                (logged (BuyToken q sg api_rinkeby)
                        (show_progress "" (now_loading w)))
                (emissions (callbacks sdk)) in
    match settles sdk with
    | None => (Returned tt, done_loading w1)
    | Some e => (Threw e, logged (ConsoleError e) w1)
    end.
Proof.
  intros Hchain Hacc Hne Hconn Hsig.
  rewrite (onBuyClick_submits _ _ _ _ taker) by done.
  by rewrite submit_run, connecting_connected, Hsig.
Qed.

(** C5: a click on "Buy Tokens" while the active chain is not chain 4 (or
    there is no active chain) alerts "You are connected to the wrong
    network. Please, switch to the Rinkeby Test Network.", ends with
    loading false whatever it was, changes no other cell, and returns
    without reaching [buy]: the outcome does not depend on the signer or on
    the execution process, and no [buyToken] call is added to the log. *)
Theorem C5_wrong_network_aborts (h : Hooks) (sdk : Execution) (s : State)
    (w : World) :
  activeChain_id h <> Some 4%Z ->
  onBuyClick h sdk s w
  = (Returned tt,
     {| ui :=
          {| progressText := progressText (ui w);
             loading := false;
             errorText := errorText (ui w);
             tokens := tokens (ui w);
             contractInput := contractInput (ui w);
             selectedTokenIds := selectedTokenIds (ui w) |};
        log :=
          log w
          ++ [Alert "You are connected to the wrong network. Please, switch to the Rinkeby Test Network."] |}) /\
  loading (ui (onBuyClick h sdk s w).2) = false /\
  (forall q sg api,
      BuyToken q sg api ∈ log (onBuyClick h sdk s w).2 ->
      BuyToken q sg api ∈ log w).
Proof.
  intros Hchain. rewrite onBuyClick_wrong_network by done.
  split; [done|]. split; [done|]. intros q sg api. cbn.
  rewrite elem_of_app, list_elem_of_singleton. by intros [?|?].
Qed.

Lemma C5_witness :
  activeChain_id mainnet_wallet <> Some 4%Z /\
  onBuyClick mainnet_wallet two_step_sale two_ticked (start two_ticked)
  = (Returned tt,
     {| ui := two_ticked;
        log := [Alert "You are connected to the wrong network. Please, switch to the Rinkeby Test Network."] |}) /\
  loading
    (ui (onBuyClick mainnet_wallet two_step_sale two_ticked
           {| ui := with_loading true two_ticked; log := [] |}).2) = false.
Proof.
  split; [discriminate|]. split.
  - apply (C5_wrong_network_aborts mainnet_wallet two_step_sale two_ticked
             (start two_ticked)).
    discriminate.
  - apply (C5_wrong_network_aborts mainnet_wallet two_step_sale two_ticked
             {| ui := with_loading true two_ticked; log := [] |}).
    discriminate.
Defined.

(** C1, as stated, fails: with nothing ticked the click goes through and
    [buyToken] is called with a request that names only the taker. *)
Lemma C1_counterexample :
  selectedTokenIds none_ticked = [] /\
  (fire (onBuyClick rinkeby_wallet two_step_sale) (start none_ticked)).1
  = Returned tt /\
  log (fire (onBuyClick rinkeby_wallet two_step_sale) (start none_ticked)).2
  = [BuyToken {[ "taker" := "0xB0b" ]} (WalletSigner "0xB0b") api_rinkeby].
Proof. split; [reflexivity|]. split; vm_compute; reflexivity. Qed.

(** C1, amended: given an empty selection that passes validation (chain 4,
    a non-empty account address, connected, a signer), the request is not
    rejected: it is built with the taker alone and no token entry, and
    [buyToken] is called with it once. *)
Theorem C1_empty_selection_submits (h : Hooks) (sdk : Execution) (w : World)
    (taker : string) (sg : Signer) :
  activeChain_id h = Some 4%Z ->
  account_address h = Some taker ->
  taker <> "" ->
  isConnected h = true ->
  signer_data h = Some sg ->
  selectedTokenIds (ui w) = [] ->
  build_query taker (contractInput (ui w)) (selectedTokenIds (ui w))
  = {[ "taker" := taker ]} /\
  log (fire (onBuyClick h sdk) w).2
  = log w ++ BuyToken {[ "taker" := taker ]} sg api_rinkeby
          :: match settles sdk with
             | None => []
             | Some e => [ConsoleError e]
             end.
Proof.
  intros Hchain Hacc Hne Hconn Hsig Hsel. rewrite Hsel.
  split; [done|]. unfold fire.
  rewrite (onBuyClick_executes _ _ _ _ taker sg) by done.
  rewrite Hsel. cbn zeta.
  destruct (settles sdk); cbn; rewrite told_show_log; cbn; [|done].
  by rewrite <- app_assoc.
Qed.

Lemma C1_witness :
  build_query "0xB0b" (contractInput (ui (start none_ticked)))
    (selectedTokenIds (ui (start none_ticked)))
  = {[ "taker" := "0xB0b" ]} /\
  log (fire (onBuyClick rinkeby_wallet rejected_at_once)
         (start none_ticked)).2
  = log (start none_ticked)
    ++ BuyToken {[ "taker" := "0xB0b" ]} (WalletSigner "0xB0b") api_rinkeby
       :: match settles rejected_at_once with
          | None => []
          | Some e => [ConsoleError e]
          end.
Proof.
  apply (C1_empty_selection_submits rinkeby_wallet rejected_at_once
           (start none_ticked) "0xB0b" (WalletSigner "0xB0b"));
    try reflexivity.
  discriminate.
Defined.

(** ** [buy] (lines 9-54) *)

Lemma buy_without_signer sdk q sink w :
  buy sdk q sink None w = (Threw missing_signer, w).
Proof. reflexivity. Qed.

Lemma buy_shown sdk q sg w :
  buy sdk q setProgressText (Some sg) w
  = let w1 := told show_progress (logged (BuyToken q sg api_rinkeby) w)
                   (emissions (callbacks sdk)) in
    match settles sdk with
    | None => (Returned true, w1)
    | Some e => (Threw e, logged (ConsoleError e) w1)
    end.
Proof. apply (buy_run _ _ setProgressText_total). Qed.

Lemma buy_recorded sdk q sg w :
  buy sdk q recorder (Some sg) w
  = let w1 := told record (logged (BuyToken q sg api_rinkeby) w)
                   (emissions (callbacks sdk)) in
    match settles sdk with
    | None => (Returned true, w1)
    | Some e => (Threw e, logged (ConsoleError e) w1)
    end.
Proof. apply (buy_run _ _ recorder_total). Qed.

Lemma buy_shown_log sdk q sg w :
  log (buy sdk q setProgressText (Some sg) w).2
  = log w ++ BuyToken q sg api_rinkeby
          :: match settles sdk with
             | None => []
             | Some e => [ConsoleError e]
             end.
Proof.
  rewrite buy_shown. cbn zeta.
  destruct (settles sdk); cbn; rewrite told_show_log; cbn; [|done].
  by rewrite <- app_assoc.
Qed.

(** C7: [buy] throws the ReferenceError "Missing a signer" with nothing
    done (the world is as before: the execution process has not been
    contacted) exactly when the signer is absent; with a signer it calls
    [buyToken] and its outcome is the process's own: [true] when the
    promise resolves, the process's error when it rejects. *)
Theorem C7_missing_signer_iff (sdk : Execution) (q : BuyingQuery)
    (sgn : option Signer) (w : World) :
  missing_signer = JsError.mk "ReferenceError" "Missing a signer" /\
  (buy sdk q setProgressText sgn w = (Threw missing_signer, w)
   <-> sgn = None) /\
  match sgn with
  | None => forall sink, buy sdk q sink None w = (Threw missing_signer, w)
  | Some sg =>
      (buy sdk q setProgressText sgn w).1
      = match settles sdk with
        | None => Returned true
        | Some e => Threw e
        end /\
      log (buy sdk q setProgressText sgn w).2
      = log w ++ BuyToken q sg api_rinkeby
              :: match settles sdk with
                 | None => []
                 | Some e => [ConsoleError e]
                 end
  end.
Proof.
  split; [reflexivity|]. split.
  - split; [|by intros ->].
    destruct sgn as [sg|]; [|done]. intros Heq. exfalso.
    pose proof (buy_shown_log sdk q sg w) as Hlog.
    rewrite Heq in Hlog. cbn in Hlog.
    apply (f_equal length) in Hlog. rewrite length_app in Hlog.
    cbn in Hlog. lia.
  - destruct sgn as [sg|]; [|intros; apply buy_without_signer].
    split; [|apply buy_shown_log].
    rewrite buy_shown. cbn zeta. by destruct (settles sdk).
Qed.

(** C3, as stated, fails: when the process rejects before reporting any
    step, the click ends with the error thrown, no error text shown and
    loading still on. *)
Lemma C3_counterexample :
  settles rejected_at_once = Some insufficient_funds /\
  (fire (onBuyClick rinkeby_wallet rejected_at_once) (start two_ticked)).1
  = Threw insufficient_funds /\
  progressText
    (ui (fire (onBuyClick rinkeby_wallet rejected_at_once)
           (start two_ticked)).2) = "" /\
  loading
    (ui (fire (onBuyClick rinkeby_wallet rejected_at_once)
           (start two_ticked)).2) = true /\
  ~ failed_state
      (ui (fire (onBuyClick rinkeby_wallet rejected_at_once)
             (start two_ticked)).2) insufficient_funds.
Proof.
  repeat split; try (vm_compute; reflexivity).
  intros [Htext _]. vm_compute in Htext. discriminate.
Qed.

(** C3, amended: when the execution process throws, [buy] catches the
    error, records it with console.error and throws the same error again;
    the catch tells the progress observer nothing (it hears only what the
    process's callbacks said before the throw), and the click on "Buy
    Tokens" ends with that same error thrown. *)
Theorem C3_catch_records_and_rethrows (sdk : Execution) (q : BuyingQuery)
    (sg : Signer) (w : World) (e : JsError.t) :
  settles sdk = Some e ->
  (buy sdk q recorder (Some sg) w).1 = Threw e /\
  ui (buy sdk q recorder (Some sg) w).2 = ui w /\
  log (buy sdk q recorder (Some sg) w).2
  = log w ++ [BuyToken q sg api_rinkeby]
          ++ (Observed <$> (render <$> emissions (callbacks sdk)))
          ++ [ConsoleError e] /\
  (forall h taker,
      activeChain_id h = Some 4%Z ->
      account_address h = Some taker ->
      taker <> "" ->
      isConnected h = true ->
      signer_data h = Some sg ->
      (fire (onBuyClick h sdk) w).1 = Threw e /\
      last (log (fire (onBuyClick h sdk) w).2) = Some (ConsoleError e)).
Proof.
  intros Hsettles. rewrite buy_recorded, Hsettles.
  cbn [snd fst logged ui log]. split; [done|].
  split; [by rewrite told_record_ui|]. split.
  - rewrite told_record_log. cbn [logged log]. by rewrite <- !app_assoc.
  - intros h taker Hchain Hacc Hne Hconn Hsig. unfold fire.
    rewrite (onBuyClick_executes _ _ _ _ taker sg) by done.
    rewrite Hsettles. cbn zeta. split; [done|]. cbn. apply last_snoc.
Qed.

Lemma C3_witness :
  (buy rejected_at_once ∅ recorder (Some (WalletSigner "0xB0b"))
     (start two_ticked)).1 = Threw insufficient_funds /\
  log (buy rejected_at_once ∅ recorder (Some (WalletSigner "0xB0b"))
         (start two_ticked)).2
  = [BuyToken ∅ (WalletSigner "0xB0b") api_rinkeby;
     ConsoleError insufficient_funds].
Proof.
  destruct (C3_catch_records_and_rethrows rejected_at_once ∅
              (WalletSigner "0xB0b") (start two_ticked) insufficient_funds
              eq_refl) as (Hres & _ & Hlog & _).
  split; [exact Hres|exact Hlog].
Defined.

(** ** The progress narrative of one submission *)

Lemma emissions_app cs1 cs2 :
  emissions (cs1 ++ cs2) = emissions cs1 ++ emissions cs2.
Proof. unfold emissions. apply omap_app. Qed.

Lemma emissions_notifications (notifications : list (option (list Step))) :
  exists texts, emissions (SetState <$> notifications) = InProgress <$> texts.
Proof.
  induction notifications as [|n ns [texts IH]]; [by exists []|].
  change (SetState <$> n :: ns) with ([SetState n] ++ (SetState <$> ns)).
  rewrite emissions_app, IH. unfold emissions. cbn [omap list_omap emission].
  destruct n as [steps|]; cbn; [|by exists texts].
  destruct (currentStep steps) as [st|]; cbn; [|by exists texts].
  by exists ((message st || "") :: texts).
Qed.

Lemma finishes_once_narrative cs :
  finishes_once cs -> narrative (emissions cs).
Proof.
  intros (ns & t & -> & Ht). rewrite emissions_app.
  destruct (emissions_notifications ns) as [texts ->].
  destruct Ht as [->|[err ->]]; eexists texts, _; split; done.
Qed.

Lemma buy_recorded_observed sdk q sg w :
  observed (log (buy sdk q recorder (Some sg) w).2)
  = observed (log w) ++ (render <$> emissions (callbacks sdk)).
Proof.
  rewrite buy_recorded. cbn zeta.
  destruct (settles sdk); cbn [snd logged log];
    rewrite told_record_log; cbn [logged log];
    rewrite !observed_app, observed_Observed; cbn;
    by rewrite ?app_nil_r.
Qed.

(** C4, as stated, fails: the callbacks are passed on as they come, so a
    step reported after the success callback reaches the observer after
    the terminal message. *)
Lemma C4_counterexample :
  observed (log (buy late_step ∅ recorder (Some (WalletSigner "0xB0b"))
                   (start two_ticked)).2)
  = ["Success"; "Confirming"] /\
  emissions (callbacks late_step) = [Success; InProgress "Confirming"] /\
  ~ narrative (emissions (callbacks late_step)).
Proof.
  split; [vm_compute; reflexivity|]. split; [reflexivity|].
  intros (texts & t & Heq & _).
  destruct texts as [|a texts]; cbn in Heq; discriminate.
Qed.

(** A submission that was started and tells the observer nothing at all. *)
Example started_and_silent :
  observed (log (buy rejected_at_once ∅ recorder
                   (Some (WalletSigner "0xB0b")) (start two_ticked)).2) = [] /\
  BuyToken ∅ (WalletSigner "0xB0b") api_rinkeby
  ∈ log (buy rejected_at_once ∅ recorder
           (Some (WalletSigner "0xB0b")) (start two_ticked)).2.
Proof. split; [reflexivity|]. vm_compute. apply list_elem_of_here. Qed.

(** C4, amended: when the execution process reports steps and then calls
    exactly one of [handleSuccess] and [handleError], and nothing after it,
    the observer receives, in the order of the callbacks, zero or more
    progress messages followed by exactly one terminal message; a
    submission stopped by a missing signer, a wrong network or a missing
    account sends the observer nothing. *)
Theorem C4_narrative_of_finishing_process (sdk : Execution)
    (q : BuyingQuery) (sg : Signer) (w : World) :
  finishes_once (callbacks sdk) ->
  observed (log (buy sdk q recorder (Some sg) w).2)
  = observed (log w) ++ (render <$> emissions (callbacks sdk)) /\
  narrative (emissions (callbacks sdk)) /\
  observed (log (buy sdk q recorder None w).2) = observed (log w) /\
  (forall h s,
      activeChain_id h <> Some 4%Z \/
      truthy_string (account_address h) = false ->
      progressText (ui (onBuyClick h sdk s w).2) = progressText (ui w) /\
      forall q' sg' api,
        BuyToken q' sg' api ∈ log (onBuyClick h sdk s w).2 ->
        BuyToken q' sg' api ∈ log w).
Proof.
  intros Hfin. split; [apply buy_recorded_observed|].
  split; [by apply finishes_once_narrative|]. split; [done|].
  intros h s Hpre.
  destruct (decide (activeChain_id h = Some 4%Z)) as [Hchain|Hchain].
  - destruct Hpre as [?|Hacc]; [done|].
    by rewrite onBuyClick_no_account.
  - rewrite onBuyClick_wrong_network by done. split; [done|].
    intros q' sg' api. cbn.
    rewrite elem_of_app, list_elem_of_singleton. by intros [?|?].
Qed.

Lemma C4_witness :
  finishes_once (callbacks two_step_sale) /\
  observed (log (buy two_step_sale ∅ recorder (Some (WalletSigner "0xB0b"))
                   (start two_ticked)).2)
  = ["Approving"; "Confirming"; "Success"] /\
  narrative (emissions (callbacks two_step_sale)).
Proof.
  assert (Hfin : finishes_once (callbacks two_step_sale)).
  { exists [Some [mkStep incomplete (Some "Approving");
                  mkStep incomplete (Some "Confirming")];
            Some [mkStep complete (Some "Approving");
                  mkStep incomplete (Some "Confirming")]], HandleSuccess.
    split; [reflexivity|by left]. }
  split; [exact Hfin|].
  destruct (C4_narrative_of_finishing_process two_step_sale ∅
              (WalletSigner "0xB0b") (start two_ticked) Hfin)
    as (Hobs & Hnar & _).
  split; [exact Hobs|exact Hnar].
Defined.

(** ** Step notifications (lines 31-40) *)

Lemma currentStep_first steps :
  match currentStep steps with
  | Some st =>
      exists before after,
        steps = before ++ st :: after /\
        status st = incomplete /\
        Forall (fun earlier => status earlier <> incomplete) before
  | None => Forall (fun st => status st <> incomplete) steps
  end.
Proof.
  unfold currentStep. induction steps as [|x steps IH]; cbn; [done|].
  destruct (bool_decide (status x = incomplete)) eqn:Hx.
  - apply bool_decide_eq_true in Hx. by exists [], steps.
  - apply bool_decide_eq_false in Hx.
    destruct (List.find _ steps) as [st|].
    + destruct IH as (before & after & -> & Hst & Hbefore).
      exists (x :: before), after. by repeat constructor.
    + by constructor.
Qed.

Lemma buy_setState_run sink upd :
  (forall msg w, sink msg w = (Returned tt, upd msg w)) ->
  forall steps w,
    buy_setState sink steps w
    = (Returned tt,
       match steps ≫= currentStep with
       | Some st => upd (message st || "") w
       | None => w
       end).
Proof.
  intros Hsink [steps|] w; [|done]. unfold buy_setState. cbn.
  fold (currentStep steps). by destruct (currentStep steps).
Qed.

(** C6, as stated, fails: of two steps still incomplete the most recently
    seen one is the second, and [buy] emits the message of the first. *)
Lemma C6_counterexample :
  buy_setState recorder (Some two_pending) (start initial_state)
  = (Returned tt, {| ui := initial_state; log := [Observed "Approving"] |}) /\
  message <$> latestIncomplete two_pending = Some (Some "Confirming") /\
  emission (SetState (Some two_pending))
  <> (fun step => InProgress (message step || "")) <$>
       latestIncomplete two_pending.
Proof. split; [reflexivity|]. split; [reflexivity|]. discriminate. Qed.

(** C6, amended: a step notification makes [buy] emit one message, that of
    the first step of the array whose status is incomplete (its message
    when that is a non-empty text, the empty text otherwise), and nothing
    when it holds no incomplete step or no steps; the text shown is
    overwritten by each emission, so after a run it is the message of the
    latest emission only. *)
Theorem C6_current_step_message :
  (forall steps w,
      buy_setState recorder steps w
      = (Returned tt,
         match steps ≫= currentStep with
         | Some st => record (message st || "") w
         | None => w
         end)) /\
  (forall steps w,
      buy_setState setProgressText steps w
      = (Returned tt,
         match steps ≫= currentStep with
         | Some st => show_progress (message st || "") w
         | None => w
         end)) /\
  (forall steps,
      match currentStep steps with
      | Some st =>
          exists before after,
            steps = before ++ st :: after /\
            status st = incomplete /\
            Forall (fun earlier => status earlier <> incomplete) before
      | None => Forall (fun st => status st <> incomplete) steps
      end) /\
  (forall msg earlier w,
      show_progress msg (show_progress earlier w) = show_progress msg w) /\
  (forall sdk q sg w,
      progressText (ui (buy sdk q setProgressText (Some sg) w).2)
      = match last (emissions (callbacks sdk)) with
        | Some m => render m
        | None => progressText (ui w)
        end) /\
  (forall text d, (Some text || d) = if decide (text = "") then d else text) /\
  (forall d, (None || d) = d) /\
  (forall before text after w,
      buy_setState recorder
        (Some ((mkStep complete before :: mkStep error before
                :: mkStep incomplete (Some text) :: after))) w
      = (Returned tt,
         {| ui := ui w;
            log := log w ++ [Observed (if decide (text = "") then ""
                                       else text)] |})) /\
  (forall after w,
      progressText
        (ui (buy_setState setProgressText
               (Some (mkStep incomplete None :: after)) w).2) = "").
Proof.
  split; [apply (buy_setState_run _ _ recorder_total)|].
  split; [apply (buy_setState_run _ _ setProgressText_total)|].
  split; [apply currentStep_first|]. split; [done|].
  split.
  { intros sdk q sg w. rewrite buy_shown. cbn zeta.
    destruct (settles sdk); cbn [snd logged ui]; rewrite told_show_ui;
      by destruct (last (emissions (callbacks sdk))). }
  assert (Hor : forall text d,
             (Some text || d) = if decide (text = "") then d else text).
  { intros text d. unfold string_or, truthy_string.
    destruct (decide (text = "")) as [->|Hne]; [done|].
    by rewrite bool_decide_eq_false_2. }
  split; [exact Hor|]. split; [done|]. split; [|done].
  intros before text after w.
  rewrite (buy_setState_run _ _ recorder_total). cbn -[string_or].
  rewrite (bool_decide_eq_false_2 (complete = incomplete)) by done.
  rewrite (bool_decide_eq_false_2 (error = incomplete)) by done.
  rewrite (bool_decide_eq_true_2 (incomplete = incomplete)) by done.
  cbn -[string_or]. by rewrite Hor.
Qed.

(** ** Invariants of the machine *)












(** * Further properties of the component *)

(** ** Clicks on "Buy Tokens" that stop early *)

(** X1: on chain 4, a click without an account address (no account, or an
    empty address) only resets loading: no alert, no message, no call. *)
Theorem buy_click_without_account_is_silent (h : Hooks) (sdk : Execution)
    (s : State) (w : World) :
  activeChain_id h = Some 4%Z ->
  account_address h = None \/ account_address h = Some "" ->
  onBuyClick h sdk s w
  = (Returned tt, {| ui := with_loading false (ui w); log := log w |}).
Proof.
  intros Hchain Hacc. apply onBuyClick_no_account; [done|].
  by destruct Hacc as [-> | ->].
Qed.

Lemma buy_click_without_account_witness :
  onBuyClick empty_address_wallet two_step_sale two_ticked (start two_ticked)
  = (Returned tt, start two_ticked).
Proof.
  apply (buy_click_without_account_is_silent empty_address_wallet
           two_step_sale two_ticked (start two_ticked));
    [reflexivity|by right].
Defined.

(** X2: the "Buy Tokens" button is rendered only for a connected wallet,
    and a click on a rendered button never asks the wallet connector,
    whatever the chain, the account, the signer and the purchase do. *)
Theorem rendered_buy_click_never_connects (h : Hooks) (sdk : Execution)
    (w : World) :
  is_Some (panel (view h (ui w)) ≫= listing) ->
  isConnected h = true /\
  (ConnectorConnect ∈ log (fire (onBuyClick h sdk) w).2 ->
   ConnectorConnect ∈ log w).
Proof.
  intros Hrendered.
  assert (Hconn : isConnected h = true).
  { unfold view in Hrendered. cbn [panel] in Hrendered.
    destruct (isConnected h); [done|]. by destruct Hrendered. }
  split; [done|]. unfold fire.
  destruct (decide (activeChain_id h = Some 4%Z)) as [Hchain|Hchain].
  - destruct (account_cases h) as [Hacc|(taker & Hacc & Hne)].
    + by rewrite onBuyClick_no_account.
    + rewrite (onBuyClick_submits _ _ _ _ taker) by done.
      rewrite submit_run, connecting_connected by done.
      destruct (signer_data h) as [sg|]; [|done]. cbn zeta.
      destruct (settles sdk); cbn [snd logged done_loading log];
        rewrite told_show_log; cbn [logged show_progress now_loading log];
        rewrite !elem_of_app, !list_elem_of_singleton;
        intuition discriminate.
  - rewrite onBuyClick_wrong_network by done. cbn.
    rewrite elem_of_app, list_elem_of_singleton. by intros [?|?].
Qed.

Lemma rendered_buy_click_never_connects_witness :
  isConnected rinkeby_wallet = true /\
  (ConnectorConnect
   ∈ log (fire (onBuyClick rinkeby_wallet rejected_at_once)
            (start two_ticked)).2 ->
   ConnectorConnect ∈ log (start two_ticked)).
Proof.
  apply (rendered_buy_click_never_connects rinkeby_wallet rejected_at_once
           (start two_ticked)).
  by eexists.
Defined.

(** X4: a click that passes validation but has no signer throws the
    ReferenceError of [buy] after the progress text was cleared: nothing is
    logged, and loading is left on. *)
Theorem buy_click_without_signer (h : Hooks) (sdk : Execution) (s : State)
    (w : World) (taker : string) :
  activeChain_id h = Some 4%Z ->
  account_address h = Some taker ->
  taker <> "" ->
  isConnected h = true ->
  signer_data h = None ->
  onBuyClick h sdk s w
  = (Threw missing_signer,
     {| ui := with_progressText "" (with_loading true (ui w));
        log := log w |}).
Proof.
  intros Hchain Hacc Hne Hconn Hsig.
  rewrite (onBuyClick_submits _ _ _ _ taker) by done.
  by rewrite submit_run, connecting_connected, Hsig.
Qed.

Lemma buy_click_without_signer_witness :
  onBuyClick unsigned_wallet two_step_sale two_ticked (start two_ticked)
  = (Threw missing_signer,
     {| ui := with_progressText "" (with_loading true two_ticked);
        log := [] |}).
Proof.
  apply (buy_click_without_signer unsigned_wallet two_step_sale two_ticked
           (start two_ticked) "0xB0b"); try reflexivity.
  discriminate.
Defined.

(** ** Clicks on "Buy Tokens" that reach the SDK *)

(** X3: when validation passes and the purchase resolves, the click returns
    with one [buyToken] call logged (the request of the selection at the
    click), loading off, and the progress text equal to the last message of
    the process, or empty when it sent none: the text of an earlier
    purchase does not survive. *)
Theorem buy_click_resolved (h : Hooks) (sdk : Execution) (w : World)
    (taker : string) (sg : Signer) :
  activeChain_id h = Some 4%Z ->
  account_address h = Some taker ->
  taker <> "" ->
  isConnected h = true ->
  signer_data h = Some sg ->
  settles sdk = None ->
  (fire (onBuyClick h sdk) w).1 = Returned tt /\
  log (fire (onBuyClick h sdk) w).2
  = log w ++ [BuyToken (build_query taker (contractInput (ui w))
                          (selectedTokenIds (ui w))) sg api_rinkeby] /\
  ui (fire (onBuyClick h sdk) w).2
  = with_loading false
      (with_progressText
         (match last (emissions (callbacks sdk)) with
          | Some m => render m
          | None => ""
          end) (ui w)).
Proof.
  intros Hchain Hacc Hne Hconn Hsig Hres. unfold fire.
  rewrite (onBuyClick_executes _ _ _ _ taker sg) by done.
  rewrite Hres. cbn zeta. cbn [fst snd done_loading log ui].
  split; [done|]. rewrite told_show_log, told_show_ui. split; [done|].
  by destruct (last (emissions (callbacks sdk))).
Qed.

Lemma buy_click_resolved_witness :
  log (fire (onBuyClick rinkeby_wallet two_step_sale) (start two_ticked)).2
  = [BuyToken (build_query "0xB0b" "0xC" ["A"; "B"]) (WalletSigner "0xB0b")
       api_rinkeby] /\
  ui (fire (onBuyClick rinkeby_wallet two_step_sale) (start two_ticked)).2
  = with_progressText "Success" two_ticked.
Proof.
  destruct (buy_click_resolved rinkeby_wallet two_step_sale
              (start two_ticked) "0xB0b" (WalletSigner "0xB0b"))
    as (_ & Hlog & Hui); try reflexivity; [discriminate|].
  split; [exact Hlog|exact Hui].
Defined.

Lemma buyToken_calls_app l1 l2 :
  buyToken_calls (l1 ++ l2) = buyToken_calls l1 + buyToken_calls l2.
Proof. unfold buyToken_calls. by rewrite List.filter_app, length_app. Qed.

Lemma connecting_calls h w :
  buyToken_calls (log (connecting h w).2) = buyToken_calls (log w).
Proof.
  unfold connecting, connector_connect, mbind, M_bind, bind.
  destruct (isConnected h); cbn -[buyToken_calls]; [done|].
  destruct (connect_settles h); cbn -[buyToken_calls];
    rewrite buyToken_calls_app; cbn; lia.
Qed.

Lemma connecting_result h w :
  (connecting h w).1
  = if isConnected h then Returned tt
    else match connect_settles h with
         | None => Returned tt
         | Some e => Threw e
         end.
Proof.
  unfold connecting, connector_connect, mbind, M_bind, bind.
  destruct (isConnected h); cbn; [done|].
  by destruct (connect_settles h).
Qed.

(** X5: one click calls [buyToken] at most once, and exactly once when the
    chain is 4, the address is not empty, the wallet is connected (or the
    connector resolves) and a signer is there; whether the purchase then
    succeeds does not matter. *)
Theorem buy_click_calls_sdk_at_most_once (h : Hooks) (sdk : Execution)
    (s : State) (w : World) :
  buyToken_calls (log (onBuyClick h sdk s w).2)
  = buyToken_calls (log w) + (if reaches_sdk h then 1 else 0).
Proof.
  unfold reaches_sdk.
  destruct (decide (activeChain_id h = Some 4%Z)) as [Hchain|Hchain].
  2:{ rewrite onBuyClick_wrong_network by done.
      rewrite (bool_decide_eq_false_2 _ Hchain).
      cbn [andb snd done_loading logged log].
      rewrite buyToken_calls_app. cbn. lia. }
  rewrite (bool_decide_eq_true_2 _ Hchain). cbn [andb].
  destruct (account_cases h) as [Hacc|(taker & Hacc & Hne)].
  { rewrite onBuyClick_no_account by done. rewrite Hacc.
    cbn [andb snd done_loading log]. lia. }
  rewrite (onBuyClick_submits _ _ _ _ taker) by done.
  rewrite Hacc. cbn [truthy_string].
  rewrite (bool_decide_eq_false_2 _ Hne). cbn [negb andb].
  rewrite submit_run.
  pose proof (connecting_calls h (now_loading w)) as Hcalls.
  pose proof (connecting_result h (now_loading w)) as Hres.
  destruct (connecting h (now_loading w)) as [[[]|e] w0];
    cbn [fst snd] in Hcalls, Hres; cbn [now_loading log] in Hcalls.
  - assert (orb (isConnected h) (bool_decide (connect_settles h = None)) = true)
      as ->.
    { destruct (isConnected h); [done|].
      destruct (connect_settles h); [done|]. by rewrite bool_decide_eq_true_2. }
    cbn [andb]. destruct (signer_data h) as [sg|].
    + rewrite bool_decide_eq_true_2 by done. cbn zeta.
      destruct (settles sdk);
        repeat first [ rewrite buyToken_calls_app
                     | rewrite told_show_log
                     | progress cbn [snd logged done_loading show_progress log] ];
        rewrite Hcalls; cbn; lia.
    + rewrite bool_decide_eq_false_2 by (by intros []).
      cbn [andb snd show_progress log]. rewrite Hcalls. lia.
  - assert (orb (isConnected h) (bool_decide (connect_settles h = None)) = false)
      as ->.
    { destruct (isConnected h); [done|].
      destruct (connect_settles h); [|done]. by rewrite bool_decide_eq_false_2. }
    cbn [andb snd]. rewrite Hcalls. lia.
Qed.

(** X6: whatever the wallet, the process and the outcome, a click on "Buy
    Tokens" leaves the listing, the contract field and the selection as
    they were: what was bought stays ticked. *)
Theorem buy_click_keeps_listing_and_selection (h : Hooks) (sdk : Execution)
    (w : World) :
  tokens (ui (fire (onBuyClick h sdk) w).2) = tokens (ui w) /\
  contractInput (ui (fire (onBuyClick h sdk) w).2) = contractInput (ui w) /\
  selectedTokenIds (ui (fire (onBuyClick h sdk) w).2)
  = selectedTokenIds (ui w) /\
  errorText (ui (fire (onBuyClick h sdk) w).2) = errorText (ui w).
Proof.
  unfold fire.
  destruct (onBuyClick_same h sdk (ui w) w) as (Ht & Hc & Hs).
  repeat split; try done.
  destruct (decide (activeChain_id h = Some 4%Z)) as [Hchain|Hchain].
  - destruct (account_cases h) as [Hacc|(taker & Hacc & Hne)].
    + by rewrite onBuyClick_no_account.
    + rewrite (onBuyClick_submits _ _ _ _ taker) by done.
      rewrite submit_run.
      pose proof (connecting_ui h (now_loading w)) as Hui.
      destruct (connecting h (now_loading w)) as [[[]|e] w0];
        cbn [snd] in Hui |- *; [|by rewrite Hui].
      destruct (signer_data h) as [sg|];
        [|cbn [snd show_progress ui]; by rewrite Hui].
      cbn zeta.
      destruct (settles sdk); cbn [snd logged done_loading ui];
        rewrite told_show_ui; cbn [logged show_progress ui]; rewrite Hui;
        by destruct (last (emissions (callbacks sdk))).
  - by rewrite onBuyClick_wrong_network.
Qed.

(** X7: the request is encoded with the contract field as it stands at
    the click, not with the collection the listing was loaded from: after
    the field is edited, every selected id is sent under the new text. *)
Theorem request_uses_contract_field_at_click (h : Hooks) (sdk : Execution)
    (w : World) (taker value : string) (sg : Signer) :
  activeChain_id h = Some 4%Z ->
  account_address h = Some taker ->
  taker <> "" ->
  isConnected h = true ->
  signer_data h = Some sg ->
  exists rest,
    log (run [ChangeContract value; ClickBuy h sdk] w)
    = log w ++ BuyToken (build_query taker value (selectedTokenIds (ui w)))
                 sg api_rinkeby :: rest /\
    items (build_query taker value (selectedTokenIds (ui w)))
    = list_to_set (encode value <$> selectedTokenIds (ui w)).
Proof.
  intros Hchain Hacc Hne Hconn Hsig.
  exists (match settles sdk with None => [] | Some e => [ConsoleError e] end).
  split; [|apply items_build_query].
  cbn [run handle]. unfold fire.
  rewrite (onBuyClick_executes _ _ _ _ taker sg) by done. cbn zeta.
  destruct (settles sdk); cbn [snd logged done_loading log];
    rewrite told_show_log; cbn; [|done].
  by rewrite <- app_assoc.
Qed.

Lemma request_uses_contract_field_at_click_witness :
  exists rest,
    log (run [ChangeContract "0xD"; ClickBuy rinkeby_wallet two_step_sale]
           (start two_ticked))
    = log (start two_ticked)
      ++ BuyToken (build_query "0xB0b" "0xD"
                     (selectedTokenIds (ui (start two_ticked))))
           (WalletSigner "0xB0b") api_rinkeby :: rest /\
    items (build_query "0xB0b" "0xD"
             (selectedTokenIds (ui (start two_ticked))))
    = list_to_set (encode "0xD" <$> selectedTokenIds (ui (start two_ticked))).
Proof.
  apply (request_uses_contract_field_at_click rinkeby_wallet two_step_sale
           (start two_ticked) "0xB0b" "0xD" (WalletSigner "0xB0b"));
    try reflexivity.
  discriminate.
Defined.

(** ** "Load tokens to buy" *)

Lemma load_click_returned_eq catalog (s : State) (w : World)
    (fetched : list Token) :
  catalog (contractInput s) = Returned fetched ->
  onLoadClick catalog s w
  = (Returned tt,
     {| ui :=
          {| progressText := progressText (ui w);
             loading := false;
             errorText := if decide (priced fetched = [])
                          then no_tokens_message else "";
             tokens := priced fetched;
             contractInput := contractInput (ui w);
             selectedTokenIds := selectedTokenIds (ui w) |};
        log := log w ++ [GetTokens (contractInput s)] |}).
Proof.
  intros Hc. rewrite onLoadClick_run, Hc. cbn zeta.
  destruct (priced fetched) as [|t ts]; reflexivity.
Qed.

(** X8: a fetch that returns asks the catalog once, for the collection in
    the contract field, turns loading off, lists the priced items in fetch
    order, and shows the no-tokens text exactly when none is priced
    (otherwise the error text is empty); progress text, contract field and
    selection stay as they were. *)
Theorem load_click_returned catalog (s : State) (w : World)
    (fetched : list Token) :
  catalog (contractInput s) = Returned fetched ->
  onLoadClick catalog s w
  = (Returned tt,
     {| ui :=
          {| progressText := progressText (ui w);
             loading := false;
             errorText := if decide (priced fetched = [])
                          then no_tokens_message else "";
             tokens := priced fetched;
             contractInput := contractInput (ui w);
             selectedTokenIds := selectedTokenIds (ui w) |};
        log := log w ++ [GetTokens (contractInput s)] |}).
Proof. apply load_click_returned_eq. Qed.

Lemma load_click_returned_witness :
  onLoadClick none_priced two_ticked (start two_ticked)
  = (Returned tt,
     {| ui := with_tokens [] (with_errorText no_tokens_message two_ticked);
        log := [GetTokens "0xC"] |}).
Proof.
  apply (load_click_returned none_priced two_ticked (start two_ticked)
           [mkToken "0xC" "5" None; mkToken "0xC" "6" (Some (Num 0))]).
  reflexivity.
Defined.

(** X9: a fetch that fails makes the click throw the fetch's error after
    the error text was cleared and loading turned on: loading stays on, and
    the listing and the selection are the old ones. *)
Theorem load_click_failed catalog (s : State) (w : World) (e : JsError.t) :
  catalog (contractInput s) = Threw e ->
  onLoadClick catalog s w
  = (Threw e,
     {| ui := with_loading true (with_errorText "" (ui w));
        log := log w ++ [GetTokens (contractInput s)] |}).
Proof. intros Hc. by rewrite onLoadClick_run, Hc. Qed.

Lemma load_click_failed_witness :
  onLoadClick unreachable_catalog two_ticked (start two_ticked)
  = (Threw network_down,
     {| ui := with_loading true two_ticked; log := [GetTokens "0xC"] |}).
Proof.
  apply (load_click_failed unreachable_catalog two_ticked (start two_ticked)
           network_down).
  reflexivity.
Defined.

(** X10: the price filter keeps the fetch order and drops items only: the
    listing is a sublist of the fetch, filtering it again changes nothing,
    and it is the whole fetch exactly when every item is priced. *)
Theorem priced_is_stable_sublist (fetched : list Token) :
  priced fetched `sublist_of` fetched /\
  priced (priced fetched) = priced fetched /\
  (priced fetched = fetched <-> all_priced fetched).
Proof.
  unfold priced, all_priced. induction fetched as [|t ts (Hsub & Hidem & Hall)].
  { repeat split; constructor. }
  cbn [List.filter]. destruct (Boolean (floorAskPrice t)) eqn:Ht.
  - split; [by constructor|]. split.
    + cbn [List.filter]. by rewrite Ht, Hidem.
    + rewrite Forall_cons. split.
      * intros [= Heq]. split; [done|by apply Hall].
      * intros [_ Hts]. f_equal. by apply Hall.
  - split; [by constructor|]. split; [done|]. split.
    + intros Heq. apply sublist_length in Hsub. rewrite Heq in Hsub.
      cbn in Hsub. lia.
    + intros [Hp _]%Forall_cons. congruence.
Qed.

(** ** The selection *)

Lemma not_includes ids x : includes ids x = false <-> x ∉ ids.
Proof. unfold includes. apply bool_decide_eq_false. Qed.

Lemma filter_other_absent (ids : list string) x :
  x ∉ ids ->
  List.filter (fun y => negb (bool_decide (x = y))) ids = ids.
Proof.
  induction ids as [|y ids IH]; [done|]. intros Hx.
  apply not_elem_of_cons in Hx as [Hne Hx]. cbn.
  rewrite bool_decide_eq_false_2 by done. cbn. by rewrite IH.
Qed.

Lemma updated_NoDup ids x :
  NoDup ids -> NoDup (updatedSelectedTokenIds ids x).
Proof.
  intros Hnd. unfold updatedSelectedTokenIds.
  destruct (includes ids x) eqn:Hin.
  - apply NoDup_ListNoDup, List.NoDup_filter. by apply NoDup_ListNoDup.
  - apply NoDup_app. split; [done|]. split; [|apply NoDup_singleton].
    intros y Hy ->%list_elem_of_singleton. by apply not_includes in Hin.
Qed.

Lemma run_NoDup evs :
  forall w, NoDup (selectedTokenIds (ui w)) ->
            NoDup (selectedTokenIds (ui (run evs w))).
Proof.
  induction evs as [|ev evs IH]; intros w Hw; [done|].
  cbn [run]. apply IH.
  destruct ev as [value|catalog|row|h sdk]; cbn [handle].
  - done.
  - unfold fire. by rewrite onLoadClick_selection.
  - unfold fire. destruct (tokens (ui w) !! row); [|done].
    by apply updated_NoDup.
  - unfold fire.
    by destruct (onBuyClick_same h sdk (ui w) w) as (_ & _ & ->).
Qed.

(** X11: a toggle never creates a duplicate, so along every run of the
    component the selection holds each id at most once. *)
Theorem selection_has_no_duplicates :
  (forall ids x, NoDup ids -> NoDup (updatedSelectedTokenIds ids x)) /\
  (forall evs, NoDup (selectedTokenIds (ui (run evs (start initial_state))))).
Proof.
  split; [apply updated_NoDup|].
  intros evs. apply run_NoDup. constructor.
Qed.

(** X12: ticking an id that is not selected and unticking it gives back
    the very same selection; unticking a selected id and ticking it again
    keeps the same ids but moves it to the end. *)
Theorem toggle_twice (ids : list string) (x : string) :
  updatedSelectedTokenIds (updatedSelectedTokenIds ids x) x
  = if includes ids x
    then List.filter (fun y => negb (bool_decide (x = y))) ids ++ [x]
    else ids.
Proof.
  pose proof (includes_updated_same ids x) as Hflip.
  unfold updatedSelectedTokenIds at 1. rewrite Hflip.
  destruct (includes ids x) eqn:Hin; cbn [negb].
  - unfold updatedSelectedTokenIds. by rewrite Hin.
  - unfold updatedSelectedTokenIds. rewrite Hin.
    rewrite List.filter_app, filter_other_absent by by apply not_includes.
    cbn. rewrite bool_decide_eq_true_2 by done. cbn. apply app_nil_r.
Qed.

(** X13: a toggle of one id leaves every other id where it was: the
    selection without that id is the same list, in the same order, before
    and after. *)
Theorem toggle_keeps_the_others (ids : list string) (x : string) :
  List.filter (fun y => negb (bool_decide (x = y)))
    (updatedSelectedTokenIds ids x)
  = List.filter (fun y => negb (bool_decide (x = y))) ids.
Proof.
  unfold updatedSelectedTokenIds. destruct (includes ids x).
  - induction ids as [|y ids IH]; [done|]. cbn.
    destruct (bool_decide (x = y)) eqn:Hy; cbn; [done|].
    by rewrite Hy, IH.
  - rewrite List.filter_app. cbn. rewrite bool_decide_eq_true_2 by done.
    cbn. apply app_nil_r.
Qed.

(** ** The request *)

Lemma forEach_assign_size contract ids :
  forall index (q : gmap string string),
    (forall i, q !! tokens_key (index + i) = None) ->
    size (forEach_assign contract index ids q) = size q + length ids.
Proof.
  induction ids as [|x rest IH]; intros index q Hfree; cbn; [lia|].
  rewrite IH.
  - rewrite map_size_insert_None; [lia|].
    specialize (Hfree 0). by rewrite Nat.add_0_r in Hfree.
  - intros i. rewrite lookup_insert_ne.
    + replace (S index + i) with (index + S i) by lia. apply Hfree.
    + intros Heq%tokens_key_inj. lia.
Qed.

(** X14: the request has one property per selected id besides the taker:
    its keys are [taker] and [tokens[0]] to [tokens[n-1]] for a selection
    of n ids, so no index is skipped or written twice and the taker is
    never overwritten. *)
Theorem request_properties (taker contract : string) (ids : list string) :
  size (build_query taker contract ids) = S (length ids) /\
  (forall k,
      is_Some (build_query taker contract ids !! k)
      <-> k = "taker" \/ exists i, i < length ids /\ k = tokens_key i).
Proof.
  split.
  - unfold build_query. rewrite forEach_assign_size.
    + by rewrite map_size_singleton.
    + intros i. apply lookup_singleton_ne. intros Heq.
      by apply (tokens_key_not_taker (0 + i)).
  - intros k. split.
    + intros [v Hk]. unfold build_query in Hk.
      apply forEach_assign_origin in Hk as [Hk|(i & x & Hi & -> & _)].
      * apply lookup_singleton_Some in Hk as [<- _]. by left.
      * right. exists i. split; [|done]. by eapply lookup_lt_Some.
    + intros [->|(i & Hi & ->)].
      * rewrite build_query_taker. by eexists.
      * rewrite build_query_tokens.
        destruct (lookup_lt_is_Some_2 ids i Hi) as [x ->]. by eexists.
Qed.

Lemma encode_inj contract x y :
  encode contract x = encode contract y -> x = y.
Proof.
  unfold encode. intros Heq%(inj (String.app contract)).
  by apply (inj (String.app ":")) in Heq.
Qed.

(** X15: under one contract two different ids never encode to the same
    string, so the request carries as many distinct encoded items as the
    selection has distinct ids; along every run of the component that is
    the number of ids selected. *)
Theorem request_items_are_distinct :
  (forall contract x y, encode contract x = encode contract y -> x = y) /\
  (forall taker contract ids,
      NoDup ids ->
      size (items (build_query taker contract ids)) = length ids) /\
  (forall evs taker contract,
      size (items (build_query taker contract
                     (selectedTokenIds (ui (run evs (start initial_state))))))
      = length (selectedTokenIds (ui (run evs (start initial_state))))).
Proof.
  assert (Hsize : forall taker contract ids,
             NoDup ids ->
             size (items (build_query taker contract ids)) = length ids).
  { intros taker contract ids Hnd. rewrite items_build_query.
    rewrite size_list_to_set, length_fmap; [done|].
    apply NoDup_fmap_2; [|done]. intros x y. apply encode_inj. }
  split; [apply encode_inj|]. split; [exact Hsize|].
  intros evs taker contract. apply Hsize, run_NoDup. constructor.
Qed.

Lemma selection_has_no_duplicates_witness :
  NoDup (updatedSelectedTokenIds ["A"; "B"] "A").
Proof.
  apply (proj1 selection_has_no_duplicates).
  apply (bool_decide_unpack _). vm_compute. exact I.
Defined.

Lemma request_items_are_distinct_witness :
  size (items (build_query "0xB0b" "0xC" ["A"; "B"])) = 2.
Proof.
  apply (proj1 (proj2 request_items_are_distinct) "0xB0b" "0xC" ["A"; "B"]).
  apply (bool_decide_unpack _). vm_compute. exact I.
Defined.

(** ** What [buy] tells its observer *)

Lemma emissions_length cs : length (emissions cs) <= length cs.
Proof.
  unfold emissions. induction cs as [|c cs IH]; cbn; [lia|].
  destruct (emission c); cbn; lia.
Qed.

(** X20: whatever the execution process does, [buy] only relays: the
    observer hears exactly what the callbacks emit, in the order of the
    callbacks and at most one message per callback, and [buy] adds no
    message of its own and writes no state itself, whether the process
    resolves or rejects. *)
Theorem buy_only_relays (sdk : Execution) (q : BuyingQuery) (sg : Signer)
    (w : World) :
  observed (log (buy sdk q recorder (Some sg) w).2)
  = observed (log w) ++ (render <$> emissions (callbacks sdk)) /\
  ui (buy sdk q recorder (Some sg) w).2 = ui w /\
  length (emissions (callbacks sdk)) <= length (callbacks sdk) /\
  (forall before after,
      callbacks sdk = before ++ after ->
      emissions (callbacks sdk) = emissions before ++ emissions after).
Proof.
  split; [apply buy_recorded_observed|]. split.
  { rewrite buy_recorded. cbn zeta.
    destruct (settles sdk); cbn [snd logged ui]; by rewrite told_record_ui. }
  split; [apply emissions_length|].
  intros before after ->. apply emissions_app.
Qed.

(** ** The rendered page *)

Lemma banner_no_tokens : banner no_tokens_message = Some no_tokens_message.
Proof. reflexivity. Qed.

(** X16: for a connected wallet, after a fetch that returns, the page shows
    no loading banner; when no fetched item is priced it shows the
    no-tokens text and neither table nor "Buy Tokens" button, and
    otherwise it shows no error, one row per priced item in fetch order
    (labelled with the item's own contract and id, ticked when its id is
    in the selection) and an enabled button. *)
Theorem page_after_load (h : Hooks) catalog (w : World)
    (fetched : list Token) :
  isConnected h = true ->
  catalog (contractInput (ui w)) = Returned fetched ->
  view h (ui (fire (onLoadClick catalog) w).2)
  = {| panel :=
         Some {| inputValue := contractInput (ui w);
                 listing :=
                   if decide (priced fetched = [])
                   then None
                   else Some {| rows := row_of (selectedTokenIds (ui w))
                                          <$> priced fetched;
                                buyDisabled := false |} |};
       loadingBanner := false;
       progressBanner := banner (progressText (ui w));
       errorBanner := if decide (priced fetched = [])
                      then Some no_tokens_message else None |}.
Proof.
  intros Hconn Hc. unfold fire.
  rewrite (load_click_returned_eq catalog (ui w) w fetched Hc).
  unfold view. rewrite Hconn. cbn [snd ui tokens loading errorText
    progressText contractInput selectedTokenIds negb orb].
  destruct (priced fetched) as [|t ts]; reflexivity.
Qed.

Lemma page_after_load_witness :
  view rinkeby_wallet
    (ui (fire (onLoadClick three_fetched) (start initial_state)).2)
  = {| panel :=
         Some {| inputValue := "0x4d68e14cd7dec510c84326f54ee41f88e8fad59b";
                 listing :=
                   Some {| rows :=
                             [mkRow "0x4d68e14cd7dec510c84326f54ee41f88e8fad59b:1"
                                (Some (Num (1 # 2))) "1" false];
                           buyDisabled := false |} |};
       loadingBanner := false;
       progressBanner := None;
       errorBanner := None |}.
Proof.
  apply (page_after_load rinkeby_wallet three_fetched (start initial_state)
           [mkToken "0x4d68e14cd7dec510c84326f54ee41f88e8fad59b" "1"
              (Some (Num (1 # 2)));
            mkToken "0x4d68e14cd7dec510c84326f54ee41f88e8fad59b" "2"
              (Some (Num 0));
            mkToken "0x4d68e14cd7dec510c84326f54ee41f88e8fad59b" "3" None]);
    reflexivity.
Defined.

(** X17: a click on the checkbox of a listed token changes nothing but the
    selection, and on the page it flips the tick of that row and of every
    row with the same token id, leaving the tick of all other rows. *)
Theorem checkbox_click_flips_its_rows (w : World) (row : nat) (t u : Token) :
  tokens (ui w) !! row = Some t ->
  ui (handle (ClickCheckbox row) w).2
  = with_selectedTokenIds
      (updatedSelectedTokenIds (selectedTokenIds (ui w)) (tokenId t)) (ui w) /\
  log (handle (ClickCheckbox row) w).2 = log w /\
  checked (row_of (selectedTokenIds (ui (handle (ClickCheckbox row) w).2)) u)
  = if decide (tokenId u = tokenId t)
    then negb (checked (row_of (selectedTokenIds (ui w)) u))
    else checked (row_of (selectedTokenIds (ui w)) u).
Proof.
  intros Hrow. cbn [handle]. unfold fire. rewrite Hrow.
  split; [done|]. split; [done|].
  cbn [handleOnChange setSelectedTokenIds modify snd ui
       with_selectedTokenIds selectedTokenIds row_of checked].
  destruct (decide (tokenId u = tokenId t)) as [->|Hne].
  - apply includes_updated_same.
  - by apply includes_updated_other.
Qed.

Lemma checkbox_click_flips_its_rows_witness :
  checked
    (row_of (selectedTokenIds (ui (handle (ClickCheckbox 0)
                                     (start two_ticked)).2))
       (mkToken "0xC" "A" (Some (Num (1 # 2)))))
  = false.
Proof.
  destruct (checkbox_click_flips_its_rows (start two_ticked) 0
              (mkToken "0xC" "A" (Some (Num (1 # 2))))
              (mkToken "0xC" "A" (Some (Num (1 # 2)))) eq_refl)
    as (_ & _ & Hchecked).
  exact Hchecked.
Defined.

(** X18: after a purchase that throws, the page keeps the loading banner
    and the "Buy Tokens" button stays disabled, with the rows and their
    ticks as before; the progress banner shows the last message the
    process sent, if any. *)
Theorem page_after_thrown_purchase (h : Hooks) (sdk : Execution) (w : World)
    (taker : string) (sg : Signer) (e : JsError.t) :
  activeChain_id h = Some 4%Z ->
  account_address h = Some taker ->
  taker <> "" ->
  isConnected h = true ->
  signer_data h = Some sg ->
  settles sdk = Some e ->
  view h (ui (fire (onBuyClick h sdk) w).2)
  = {| panel :=
         Some {| inputValue := contractInput (ui w);
                 listing :=
                   if Nat.ltb 0 (length (tokens (ui w)))
                   then Some {| rows := row_of (selectedTokenIds (ui w))
                                          <$> tokens (ui w);
                                buyDisabled := true |}
                   else None |};
       loadingBanner := true;
       progressBanner :=
         match last (emissions (callbacks sdk)) with
         | Some m => banner (render m)
         | None => None
         end;
       errorBanner := banner (errorText (ui w)) |}.
Proof.
  intros Hchain Hacc Hne Hconn Hsig Hthrow. unfold fire.
  rewrite (onBuyClick_executes _ _ _ _ taker sg) by done.
  rewrite Hthrow. cbn zeta. cbn [snd logged ui].
  unfold view. rewrite told_show_ui, Hconn.
  by destruct (last (emissions (callbacks sdk))).
Qed.

Lemma page_after_thrown_purchase_witness :
  view rinkeby_wallet
    (ui (fire (onBuyClick rinkeby_wallet rejected_at_once)
           (start two_ticked)).2)
  = {| panel :=
         Some {| inputValue := "0xC";
                 listing :=
                   Some {| rows := [mkRow "0xC:A" (Some (Num (1 # 2))) "A" true;
                                    mkRow "0xC:B" (Some (Num (3 # 1))) "B" true];
                           buyDisabled := true |} |};
       loadingBanner := true;
       progressBanner := None;
       errorBanner := None |}.
Proof.
  apply (page_after_thrown_purchase rinkeby_wallet rejected_at_once
           (start two_ticked) "0xB0b" (WalletSigner "0xB0b")
           insufficient_funds); try reflexivity.
  discriminate.
Defined.

(** ** Ids that are selected but no longer listed *)

Lemma handle_keeps_tokens ev w :
  is_ClickLoad ev = false -> tokens (ui (handle ev w).2) = tokens (ui w).
Proof.
  destruct ev as [value|catalog|row|h sdk]; intros Hev; cbn [handle].
  - done.
  - done.
  - unfold fire. by destruct (tokens (ui w) !! row).
  - unfold fire. by destruct (onBuyClick_same h sdk (ui w) w) as (-> & _ & _).
Qed.

Lemma handle_keeps_unlisted ev w id :
  id ∈ selectedTokenIds (ui w) ->
  id ∉ tokenId <$> tokens (ui w) ->
  id ∈ selectedTokenIds (ui (handle ev w).2).
Proof.
  intros Hsel Hunlisted.
  destruct ev as [value|catalog|row|h sdk]; cbn [handle].
  - done.
  - unfold fire. by rewrite onLoadClick_selection.
  - unfold fire. destruct (tokens (ui w) !! row) as [t|] eqn:Hrow; [|done].
    cbn [handleOnChange setSelectedTokenIds modify snd ui
         with_selectedTokenIds selectedTokenIds].
    apply includes_true. rewrite includes_updated_other.
    + by apply includes_true.
    + intros Heq. apply Hunlisted. rewrite <- Heq.
      apply list_elem_of_fmap. exists t. split; [done|].
      by eapply list_elem_of_lookup_2.
  - unfold fire.
    by destruct (onBuyClick_same h sdk (ui w) w) as (_ & _ & ->).
Qed.

(** X19: an id that is selected but not among the listed tokens has no
    checkbox, so until the next fetch nothing the user does unticks it:
    through any checkbox clicks, edits of the contract field and clicks on
    "Buy Tokens" it stays selected, and so is part of every request. *)
Theorem unlisted_selection_is_stuck (evs : list Event) (w : World)
    (id : string) :
  id ∈ selectedTokenIds (ui w) ->
  id ∉ tokenId <$> tokens (ui w) ->
  forallb (fun ev => negb (is_ClickLoad ev)) evs = true ->
  id ∈ selectedTokenIds (ui (run evs w)) /\
  forall taker contract,
    encode contract id
    ∈ items (build_query taker contract (selectedTokenIds (ui (run evs w)))).
Proof.
  intros Hsel Hunlisted Hevs.
  assert (Hstays : id ∈ selectedTokenIds (ui (run evs w))).
  { revert w Hsel Hunlisted.
    induction evs as [|ev evs IH]; intros w Hsel Hunlisted; [done|].
    cbn [forallb] in Hevs. apply andb_true_iff in Hevs as [Hev Hevs].
    apply negb_true_iff in Hev. cbn [run]. apply IH; [done| |].
    - by apply handle_keeps_unlisted.
    - by rewrite handle_keeps_tokens. }
  split; [done|]. intros taker contract.
  rewrite items_build_query, elem_of_list_to_set.
  apply list_elem_of_fmap. by exists id.
Qed.

Lemma unlisted_selection_is_stuck_witness :
  "1" ∈ selectedTokenIds
          (ui (run [ClickCheckbox 0; ClickBuy rinkeby_wallet two_step_sale]
                 (run [ClickLoad three_fetched; ClickCheckbox 0;
                       ClickLoad two_listed] (start initial_state)))).
Proof.
  apply (unlisted_selection_is_stuck
           [ClickCheckbox 0; ClickBuy rinkeby_wallet two_step_sale]
           (run [ClickLoad three_fetched; ClickCheckbox 0;
                 ClickLoad two_listed] (start initial_state)) "1").
  - vm_compute. apply list_elem_of_here.
  - vm_compute. intros Hin. apply list_elem_of_singleton in Hin. discriminate.
  - reflexivity.
Defined.
